(** * sotorch.opt: the [Minimizer] bridge between an autodiff objective
      and [scipy.optimize.minimize]

    A shallow embedding of [src/sotorch/opt.py].  The method
    [Minimizer.minimize] is a computation in a small monad [M] that threads
    the [Minimizer] object (its field [min_obj] is mutated), may raise a
    Python exception, and writes a chronological list of observations:
    the requests handed to the external solver, the results it returned
    and the objective values seen by [_obj_npy].

    The external solver is a parameter: any function from the request to a
    finitely branching tree of callback invocations ending in a result or
    in an exception.  [sotorch.grad.jacobian] and [sotorch.grad.hessian]
    are parameters as well. *)

From Stdlib Require Import ZArith Floats.SpecFloat.
From stdpp Require Import base option list strings gmap.

Set Warnings "-register-all".
Local Open Scope string_scope.
Local Open Scope list_scope.

(** ** Python values *)

(** The values a keyword argument can take here: [None], booleans,
    integers, strings, tuples, lists, and any other object, compared by
    identity and without [__getitem__] (callables, [Bounds] objects,
    floats behave like that for every operation [minimize] performs on
    its keyword arguments: comparison with [None], [()], [[]] and method
    names, truth value, indexing). *)
Inductive pyval : Type :=
| VNone
| VBool (b : bool)
| VInt (n : Z)
| VStr (s : string)
| VTuple (l : list pyval)
| VList (l : list pyval)
| VObj (id : nat).

(** Python's [a == b]. *)
Fixpoint py_eq (a b : pyval) {struct a} : bool :=
  let fix all_eq (l l' : list pyval) {struct l} : bool :=
    match l, l' with
    | [], [] => true
    | v :: r, v' :: r' => py_eq v v' && all_eq r r'
    | _, _ => false
    end in
  match a, b with
  | VNone, VNone => true
  | VBool p, VBool q => Bool.eqb p q
  | VBool p, VInt n => Z.eqb (Z.b2z p) n
  | VInt n, VBool p => Z.eqb n (Z.b2z p)
  | VInt n, VInt m => Z.eqb n m
  | VStr s, VStr t => String.eqb s t
  | VTuple l, VTuple l' => all_eq l l'
  | VList l, VList l' => all_eq l l'
  | VObj i, VObj j => Nat.eqb i j
  | _, _ => false
  end.

(** [v is None]. *)
Definition is_none (v : pyval) : bool :=
  match v with VNone => true | _ => false end.

(** [v in [s1, ..., sn]] for a list of string literals. *)
Definition py_in (v : pyval) (names : list string) : bool :=
  existsb (fun s => py_eq v (VStr s)) names.

(** Truth value, as tested by [if v:]. *)
Definition truthy (v : pyval) : bool :=
  match v with
  | VNone => false
  | VBool b => b
  | VInt n => negb (Z.eqb n 0)
  | VStr s => negb (String.eqb s EmptyString)
  | VTuple l | VList l => match l with [] => false | _ => true end
  | VObj _ => true
  end.

(** ** Exceptions and results *)

Inductive exn : Type :=
| KeyError (key : string)
| NotImplementedError (msg : string)
| TypeError
| IndexError
| ValueError
| OtherError (code : nat).

Inductive result (A : Type) : Type :=
| Ok (a : A)
| Err (e : exn).
Arguments Ok {A} a.
Arguments Err {A} e.

(** [v[i]] for a non-negative index. *)
Definition py_index (v : pyval) (i : nat) : result pyval :=
  match v with
  | VTuple l | VList l =>
      match l !! i with Some w => Ok w | None => Err IndexError end
  | VStr s =>
      match String.get i s with
      | Some c => Ok (VStr (String c EmptyString))
      | None => Err IndexError
      end
  | _ => Err TypeError
  end.

(** ** Floats, arrays, tensors *)

(** IEEE 754 values with the comparison of [SpecFloat]. *)
Definition float : Type := spec_float.

(** [float('inf')]. *)
Definition inf : float := S754_infinity false.

(** The builtin [min(a, b)]: [b] when [b < a], else [a]. *)
Definition py_min (a b : float) : float :=
  if SFltb b a then b else a.

Record ndarray : Type := mk_ndarray { shape : list nat; data : list float }.

(** [a.size]: the product of the dimensions. *)
Definition size_of (s : list nat) : nat := foldr Nat.mul 1 s.

(** [a.shape[0]]. *)
Definition shape0 (a : ndarray) : result nat :=
  match shape a with b :: _ => Ok b | [] => Err IndexError end.

(** [a.reshape(s)] for an explicit shape [s]. *)
Definition reshape (a : ndarray) (s : list nat) : result ndarray :=
  if Nat.eqb (size_of s) (size_of (shape a))
  then Ok (mk_ndarray s (data a))
  else Err ValueError.

(** [a.reshape(-1)]. *)
Definition reshape_flat (a : ndarray) : ndarray :=
  mk_ndarray [size_of (shape a)] (data a).

(** [a.reshape(b, -1)]: the free dimension cannot be inferred when [b] is
    zero or does not divide the size. *)
Definition reshape_rows (a : ndarray) (b : nat) : result ndarray :=
  match b with
  | O => Err ValueError
  | S _ =>
      if Nat.eqb (size_of (shape a) mod b) 0
      then Ok (mk_ndarray [b; size_of (shape a) / b] (data a))
      else Err ValueError
  end.

(** Iteration over the leading axis, [for x0_ in a]. *)
Definition iter_rows (a : ndarray) : result (list ndarray) :=
  match shape a with
  | [] => Err TypeError
  | b :: s =>
      Ok (map (fun i => mk_ndarray s (take (size_of s) (drop (i * size_of s) (data a))))
              (seq 0 b))
  end.

(** [np.array(l)] for a list of arrays: they are stacked along a new
    leading axis; pieces of different shapes are refused. *)
Definition np_array (l : list ndarray) : result ndarray :=
  match l with
  | [] => Ok (mk_ndarray [0] [])
  | a :: r =>
      if forallb (fun a' => bool_decide (shape a' = shape a)) r
      then Ok (mk_ndarray (length l :: shape a) (concat (map data l)))
      else Err ValueError
  end.

Record Tensor : Type := mk_Tensor { t_array : ndarray; requires_grad : bool }.

Definition from_numpy (a : ndarray) : Tensor := mk_Tensor a false.
Definition requires_grad_ (t : Tensor) (b : bool) : Tensor := mk_Tensor (t_array t) b.
Definition detach (t : Tensor) : Tensor := mk_Tensor (t_array t) false.
Definition numpy (t : Tensor) : ndarray := t_array t.

(** ** The solver interface *)

(** The bound methods of a [Minimizer] that are passed as callbacks. *)
Inductive callback : Type := Obj_npy | Jac_npy | Hess_npy.

(** The arguments of one call of [scipy.optimize.minimize]. *)
Record OptimizeRequest : Type := mk_request {
  req_fun : callback;
  req_x0 : ndarray;
  req_args : pyval;
  req_method : pyval;
  req_jac : option callback;
  req_hess : option callback;
  req_bounds : pyval;
  req_options : pyval;
  req_constraints : pyval;
  req_tol : pyval;
  req_callback : pyval
}.

(** The fields of [OptimizeResult] that [minimize] reads. *)
Record OptimizeResult : Type := mk_result {
  res_x : ndarray;
  res_success : bool;
  res_message : string
}.

Inductive slot : Type := SlotFun | SlotJac | SlotHess.

(** What a callback hands back: the objective value, or an array. *)
Inductive pyret : Type :=
| RFloat (y : float)
| RArray (a : ndarray).

(** One run of the solver: it returns, raises, or invokes one of the
    callbacks it was given and goes on with what the callback returned. *)
Inductive solver_run : Type :=
| SReturn (r : OptimizeResult)
| SRaise (e : exn)
| SCall (s : slot) (x : ndarray) (args : list pyval) (k : pyret -> solver_run).

(** ** The monad: the object, exceptions, observations *)

Definition objective : Type := Tensor -> list pyval -> result float.

Record Minimizer : Type := mk_Minimizer { _obj_tc : objective; min_obj : float }.

Inductive event : Type :=
| EvSolve (req : OptimizeRequest)
| EvReturn (req : OptimizeRequest) (res : OptimizeResult)
| EvValue (y : float) (tracker : float).

Definition M (A : Type) : Type := Minimizer -> result A * Minimizer * list event.

Definition ret {A} (a : A) : M A := fun self => (Ok a, self, []).

Definition raise {A} (e : exn) : M A := fun self => (Err e, self, []).

Definition bind {A B} (m : M A) (f : A -> M B) : M B :=
  fun self =>
    match m self with
    | (Ok a, self1, evs1) =>
        match f a self1 with
        | (r, self2, evs2) => (r, self2, evs1 ++ evs2)
        end
    | (Err e, self1, evs1) => (Err e, self1, evs1)
    end.

#[global] Instance M_ret : MRet M := @ret.
#[global] Instance M_bind : MBind M := fun A B f m => bind m f.

Definition lift {A} (r : result A) : M A := fun self => (r, self, []).

Definition emit (ev : event) : M unit := fun self => (Ok tt, self, [ev]).

Definition get_self : M Minimizer := fun self => (Ok self, self, []).

(** [self.min_obj = v]. *)
Definition set_min_obj (v : float) : M unit :=
  fun self => (Ok tt, mk_Minimizer (_obj_tc self) v, []).

(** [__init__]. *)
Definition init (f : objective) : Minimizer := mk_Minimizer f inf.

(** [kwargs[key]]. *)
Definition getitem (kwargs : gmap string pyval) (key : string) : M pyval :=
  match kwargs !! key with
  | Some v => ret v
  | None => raise (KeyError key)
  end.

(** [kwargs[key] if key in kwargs else dflt]. *)
Definition get_or (kwargs : gmap string pyval) (key : string) (dflt : pyval) : pyval :=
  match kwargs !! key with Some v => v | None => dflt end.

(** [key in kwargs and kwargs[key] == None]. *)
Definition given_none (kwargs : gmap string pyval) (key : string) : bool :=
  match kwargs !! key with Some v => py_eq v VNone | None => false end.

(** [key in kwargs]. *)
Definition contains (kwargs : gmap string pyval) (key : string) : bool :=
  match kwargs !! key with Some _ => true | None => false end.

(** The method names of the two capability tables of [minimize]. *)
Definition jac_methods : list string :=
  ["CG"; "BFGS"; "Newton-CG"; "L-BFGS-B"; "TNC"; "SLSQP"; "dogleg";
   "trust-ncg"; "trust-krylov"; "trust-exact"; "trust-constr"].

Definition hess_methods : list string :=
  ["Newton-CG"; "dogleg"; "trust-ncg"; "trust-krylov"; "trust-exact";
   "trust-constr"].

Section Minimizer.

(** [sotorch.grad.jacobian] and [sotorch.grad.hessian] are not part of the
    sources at hand: they differentiate the graph of [objective(x, *args)]
    with respect to [x], and may raise.  They are handed tensors only, as
    the objective is, and none of them holds the [Minimizer]: they are
    functions of their arguments. *)
Variable jacobian : (Tensor -> result float) -> Tensor -> result Tensor.
Variable hessian : (Tensor -> result float) -> Tensor -> result Tensor.

(** [scipy.optimize.minimize]. *)
Variable scipy_minimize : OptimizeRequest -> solver_run.

(** *** The adapter callbacks *)

Definition _obj_npy (x : ndarray) (args : list pyval) : M float :=
  let x := from_numpy x in
  let x := requires_grad_ x true in
  self ← get_self;
  y ← lift (_obj_tc self x args);
  _ ← set_min_obj (py_min y (min_obj self));
  self' ← get_self;
  _ ← emit (EvValue y (min_obj self'));
  ret y.

Definition _jac_npy (x : ndarray) (args : list pyval) : M ndarray :=
  let x := from_numpy x in
  let x := requires_grad_ x true in
  self ← get_self;
  _ ← lift (_obj_tc self x args);
  jac ← lift (jacobian (fun t => _obj_tc self t args) x);
  ret (numpy (detach jac)).

Definition _hess_npy (x : ndarray) (args : list pyval) : M ndarray :=
  let x := from_numpy x in
  let x := requires_grad_ x true in
  self ← get_self;
  _ ← lift (_obj_tc self x args);
  hess ← lift (hessian (fun t => _obj_tc self t args) x);
  ret (numpy (detach hess)).

(** Calling a bound method. *)
Definition invoke (cb : callback) (x : ndarray) (args : list pyval) : M pyret :=
  match cb with
  | Obj_npy => y ← _obj_npy x args; ret (RFloat y)
  | Jac_npy => a ← _jac_npy x args; ret (RArray a)
  | Hess_npy => a ← _hess_npy x args; ret (RArray a)
  end.

(** The callable a request holds in a slot; [None] is not callable. *)
Definition slot_of (req : OptimizeRequest) (s : slot) : option callback :=
  match s with
  | SlotFun => Some (req_fun req)
  | SlotJac => req_jac req
  | SlotHess => req_hess req
  end.

(** Running the solver against the object. *)
Fixpoint run_solver (req : OptimizeRequest) (t : solver_run) : M OptimizeResult :=
  match t with
  | SReturn r => ret r
  | SRaise e => raise e
  | SCall s x args k =>
      match slot_of req s with
      | None => raise TypeError
      | Some cb => v ← invoke cb x args; run_solver req (k v)
      end
  end.

(** One call [minimize(self._obj_npy, x0, args=..., ...)] of the solver. *)
Definition solve (req : OptimizeRequest) : M OptimizeResult :=
  _ ← emit (EvSolve req);
  res ← run_solver req (scipy_minimize req);
  _ ← emit (EvReturn req res);
  ret res.

(** *** [Minimizer.minimize] *)

(** The loop [for i, x0_ in enumerate(x0)] of the batched branch. *)
Fixpoint batch_loop (method : pyval) (jac hess : option callback)
    (options callback : pyval) (args bounds constraints tol : pyval)
    (i : nat) (rows : list ndarray)
    (all_res : list ndarray) (suc : list bool) (msg : list string)
    : M (list ndarray * list bool * list string) :=
  match rows with
  | [] => ret (all_res, suc, msg)
  | x0_ :: rows' =>
      args_i ← lift (py_index args i);
      bounds_i ← lift (py_index bounds i);
      constraints_i ← lift (py_index constraints i);
      tol_i ← lift (py_index tol i);
      res ← solve (mk_request Obj_npy x0_ args_i method jac hess bounds_i
                               options constraints_i tol_i callback);
      batch_loop method jac hess options callback args bounds constraints tol
                 (S i) rows'
                 (all_res ++ [res_x res]) (suc ++ [res_success res])
                 (msg ++ [res_message res])
  end.

(** The replacements of lines 123 to 130. *)
Definition batch_bounds (b : nat) (bounds : pyval) : pyval :=
  if is_none bounds then VList (replicate b VNone) else bounds.

Definition batch_args (b : nat) (args : pyval) : pyval :=
  if py_eq args (VTuple []) || py_eq args (VList []) || is_none args
  then VList (replicate b VNone) else args.

Definition batch_constraints (b : nat) (constraints : pyval) : pyval :=
  if py_eq constraints (VTuple []) then VList (replicate b (VTuple [])) else constraints.

Definition batch_tol (b : nat) (tol : pyval) : pyval :=
  if is_none tol then VList (replicate b VNone) else tol.

(** The batched branch, lines 117 to 146. *)
Definition minimize_batch (method : pyval) (jac hess : option callback)
    (options callback : pyval) (args bounds constraints tol : pyval)
    (x0 : ndarray) (suc : list bool) (msg : list string)
    : M (ndarray * list bool * list string) :=
  let all_res := [] in
  b ← lift (shape0 x0);
  x0 ← (if py_eq method (VStr "trust-constr")
        then lift (reshape_rows x0 b) else ret x0);
  let bounds := batch_bounds b bounds in
  let args := batch_args b args in
  let constraints := batch_constraints b constraints in
  let tol := batch_tol b tol in
  rows ← lift (iter_rows x0);
  '(all_res, suc, msg) ←
    batch_loop method jac hess options callback args bounds constraints tol
               0 rows all_res suc msg;
  res ← lift (np_array all_res);
  ret (res, suc, msg).

(** The single-instance branch, lines 148 to 163. *)
Definition minimize_single (method : pyval) (jac hess : option callback)
    (options callback : pyval) (args bounds constraints tol : pyval)
    (x0 : ndarray) (suc : list bool) (msg : list string)
    : M (ndarray * list bool * list string) :=
  let x0 := if py_eq method (VStr "trust-constr") then reshape_flat x0 else x0 in
  res ← solve (mk_request Obj_npy x0 args method jac hess bounds
                          options constraints tol callback);
  ret (res_x res, suc ++ [res_success res], msg ++ [res_message res]).

(** The capability resolution of lines 70 to 84. *)
Definition resolve_jac (kwargs : gmap string pyval) (method : pyval) : option callback :=
  if given_none kwargs "jac" then None
  else if py_in method jac_methods then Some Jac_npy
  else None.

Definition resolve_hess (kwargs : gmap string pyval) (method : pyval) : option callback :=
  if given_none kwargs "hess" then None
  else if py_in method hess_methods then Some Hess_npy
  else None.

Definition hessp_message : string := "There is no support for 'hessp' currently.".

Definition minimize (x0 : Tensor) (kwargs : gmap string pyval)
    : M (Tensor * list bool * list string) :=
  args ← getitem kwargs "args";
  let method := get_or kwargs "method" VNone in
  let jac := resolve_jac kwargs method in
  let hess := resolve_hess kwargs method in
  _ ← (if contains kwargs "hessp"
       then raise (NotImplementedError hessp_message)
       else ret tt);
  let bounds := get_or kwargs "bounds" VNone in
  let options := get_or kwargs "options" VNone in
  let constraints := get_or kwargs "constraints" (VTuple []) in
  let tol := get_or kwargs "tol" VNone in
  let callback := get_or kwargs "callback" VNone in
  batchwise ← getitem kwargs "batchwise";
  let x0 := numpy (detach x0) in
  let x0_shape := shape x0 in
  let suc := [] in
  let msg := [] in
  _ ← set_min_obj inf;
  '(res, suc, msg) ←
    (if truthy batchwise
     then minimize_batch method jac hess options callback
                         args bounds constraints tol x0 suc msg
     else minimize_single method jac hess options callback
                          args bounds constraints tol x0 suc msg);
  ans ← lift (reshape res x0_shape);
  let ans := from_numpy ans in
  ret (ans, suc, msg).

End Minimizer.

(** ** Observations of a run *)

(** The requests handed to the solver, in order. *)
Definition solves (evs : list event) : list OptimizeRequest :=
  omap (fun ev => match ev with EvSolve req => Some req | _ => None end) evs.

(** The solver calls that returned, each with its request, in order. *)
Definition returns (evs : list event) : list (OptimizeRequest * OptimizeResult) :=
  omap (fun ev => match ev with EvReturn req res => Some (req, res) | _ => None end) evs.

(** The objective values seen by [_obj_npy], each with the value of
    [min_obj] right after it, in order. *)
Definition values (evs : list event) : list (float * float) :=
  omap (fun ev => match ev with EvValue y t => Some (y, t) | _ => None end) evs.

Definition is_nan (f : float) : bool :=
  match f with S754_nan => true | _ => false end.

(** Starting from the tracker value [m], every evaluation stores
    [min(y, current)]. *)
Fixpoint tracked (m : float) (vs : list (float * float)) : Prop :=
  match vs with
  | [] => True
  | (y, t) :: vs' => t = py_min y m /\ tracked t vs'
  end.

(** The tracker after the evaluations [vs], [m] if there is none. *)
Definition last_tracker (m : float) (vs : list (float * float)) : float :=
  List.last (map snd vs) m.

(** What the callbacks and the solver may do to the object and the log:
    no solver event, the objective kept, the tracker updated by the
    evaluations only. *)
Definition inner (self self' : Minimizer) (evs : list event) : Prop :=
  solves evs = [] /\ returns evs = [] /\
  _obj_tc self' = _obj_tc self /\
  tracked (min_obj self) (values evs) /\
  min_obj self' = last_tracker (min_obj self) (values evs).

(** Instance [i] of a batch: the request built by the loop body from the
    row [x0_] and the [i]-th elements of the four sequences. *)
Definition instance_request (method : pyval) (jac hess : option callback)
    (options callback : pyval) (args bounds constraints tol : pyval)
    (i : nat) (x0_ : ndarray) (req : OptimizeRequest) : Prop :=
  py_index args i = Ok (req_args req) /\
  py_index bounds i = Ok (req_bounds req) /\
  py_index constraints i = Ok (req_constraints req) /\
  py_index tol i = Ok (req_tol req) /\
  req = mk_request Obj_npy x0_ (req_args req) method jac hess (req_bounds req)
                   options (req_constraints req) (req_tol req) callback.

(** The rows the batched branch iterates over: those of [x0], reshaped to
    [(b, -1)] first when the method is [trust-constr]. *)
Definition batch_rows (method : pyval) (x0 : ndarray) (b : nat)
    (rows : list ndarray) : Prop :=
  shape0 x0 = Ok b /\
  exists x0',
    (if py_eq method (VStr "trust-constr") then reshape_rows x0 b else Ok x0) = Ok x0' /\
    iter_rows x0' = Ok rows.

(** The starting point the single-instance branch hands to the solver. *)
Definition single_x0 (method : pyval) (x0 : ndarray) : ndarray :=
  if py_eq method (VStr "trust-constr") then reshape_flat x0 else x0.

(** The values of a list of floats never go up: each is below or equal to
    every earlier one. *)
Definition non_increasing (ts : list float) : Prop :=
  forall i j ti tj,
    i <= j -> ts !! i = Some ti -> ts !! j = Some tj -> SFleb tj ti = true.

(** The options of [minimize] that are looked up with a default. *)
Definition optional_keys : list string :=
  ["method"; "jac"; "hess"; "bounds"; "options"; "constraints"; "tol"; "callback"].

(** ** Sample objects *)

Definition f_zero : float := S754_zero false.
Definition f_one : float := S754_finite false 4503599627370496 (-52).
Definition f_neg_one : float := S754_finite true 4503599627370496 (-52).
Definition f_two : float := S754_finite false 4503599627370496 (-51).
Definition f_five : float := S754_finite false 5629499534213120 (-50).

(** An objective of one variable that is not a number on the negative
    half line, as [x * sqrt(x) / sqrt(x)] is. *)
Definition demo_objective : objective := fun t _ =>
  match data (t_array t) with
  | [v] => Ok (if SFltb v f_zero then S754_nan else v)
  | _ => Err ValueError
  end.

(** An objective that reads the first coordinate, whatever the shape. *)
Definition first_objective : objective := fun t _ =>
  match data (t_array t) with
  | v :: _ => Ok v
  | [] => Err ValueError
  end.

(** A stand-in for automatic differentiation. *)
Definition demo_grad : (Tensor -> result float) -> Tensor -> result Tensor :=
  fun _ t => Ok (detach t).

(** A solver that evaluates the objective at the starting point, then the
    gradient and the Hessian there when it was given them, and returns
    that point. *)
Definition probe_solver : OptimizeRequest -> solver_run := fun req =>
  let done := SReturn (mk_result (req_x0 req) true "ok") in
  let with_hess :=
    match req_hess req with
    | Some _ => SCall SlotHess (req_x0 req) [] (fun _ => done)
    | None => done
    end in
  SCall SlotFun (req_x0 req) []
        (fun _ =>
           match req_jac req with
           | Some _ => SCall SlotJac (req_x0 req) [] (fun _ => with_hess)
           | None => with_hess
           end).

Definition kw (l : list (string * pyval)) : gmap string pyval := list_to_map l.

Definition x3 : Tensor :=
  mk_Tensor (mk_ndarray [3; 1] [f_one; f_neg_one; f_five]) true.

Definition x23 : Tensor :=
  mk_Tensor (mk_ndarray [2; 3] [f_one; f_two; f_five; f_five; f_two; f_one]) false.

Definition demo_run (f : objective) (x0 : Tensor) (l : list (string * pyval))
    : result (Tensor * list bool * list string) * Minimizer * list event :=
  minimize demo_grad demo_grad probe_solver x0 (kw l) (init f).

(** Keyword arguments of the sample calls. *)
Definition kw_batch : list (string * pyval) :=
  [("args", VTuple []); ("batchwise", VBool true)].

Definition kw_batch_tol : list (string * pyval) :=
  [("args", VTuple []); ("batchwise", VBool true); ("tol", VInt 1)].

Definition kw_single : list (string * pyval) :=
  [("args", VTuple []); ("batchwise", VBool false)].

Definition kw_single_bfgs : list (string * pyval) :=
  [("args", VTuple []); ("batchwise", VBool false); ("method", VStr "BFGS")].

Definition kw_single_newton : list (string * pyval) :=
  [("args", VTuple []); ("batchwise", VBool false); ("method", VStr "Newton-CG")].

Definition kw_single_trust : list (string * pyval) :=
  [("args", VTuple []); ("batchwise", VBool false); ("method", VStr "trust-constr")].

Definition kw_hessp : list (string * pyval) := [("hessp", VInt 1)].

Definition kw_args_hessp : list (string * pyval) :=
  [("args", VTuple []); ("hessp", VInt 1)].

Definition kw_no_args : list (string * pyval) := [("batchwise", VBool true)].

(** ** More sample objects *)

(** The data of an array fill its shape. *)
Definition well_formed (a : ndarray) : Prop :=
  length (data a) = size_of (shape a).


Definition demo_run_with (solver : OptimizeRequest -> solver_run)
    (x0 : Tensor) (l : list (string * pyval)) (self : Minimizer)
    : result (Tensor * list bool * list string) * Minimizer * list event :=
  minimize demo_grad demo_grad solver x0 (kw l) self.

(** A tensor of no dimension and an empty batch of pairs. *)
Definition x_scalar : Tensor := mk_Tensor (mk_ndarray [] [f_one]) false.

Definition x_empty : Tensor := mk_Tensor (mk_ndarray [0; 2] []) false.

Definition kw_batch_short_bounds : list (string * pyval) :=
  [("args", VTuple []); ("batchwise", VBool true);
   ("bounds", VList [VNone; VNone])].

Definition kw_batch_trust : list (string * pyval) :=
  [("args", VTuple []); ("batchwise", VBool true); ("method", VStr "trust-constr")].

Definition kw_single_newton_no_jac : list (string * pyval) :=
  [("args", VTuple []); ("batchwise", VBool false);
   ("method", VStr "Newton-CG"); ("jac", VNone)].

Definition kw_batch_options : list (string * pyval) :=
  [("args", VTuple []); ("batchwise", VBool true);
   ("options", VObj 1); ("callback", VObj 2); ("method", VStr "BFGS")].

(** Two sequences with the same elements of index below [B]. *)
Definition same_upto (B : nat) (v v' : pyval) : Prop :=
  forall k, k < B -> py_index v k = py_index v' k.

(** The four per-instance options. *)
Definition instance_keys : list string := ["args"; "bounds"; "constraints"; "tol"].

Definition kw_batch_bounds3 : list (string * pyval) :=
  [("bounds", VList [VNone; VNone; VNone]);
   ("args", VTuple []); ("batchwise", VBool true)].

Definition kw_batch_bounds4 : list (string * pyval) :=
  [("bounds", VList [VNone; VNone; VNone; VObj 9]);
   ("args", VTuple []); ("batchwise", VBool true)].

(** ** Running computations *)

Lemma solves_app (e1 e2 : list event) : solves (e1 ++ e2) = solves e1 ++ solves e2.
Proof. apply omap_app. Qed.

Lemma returns_app (e1 e2 : list event) : returns (e1 ++ e2) = returns e1 ++ returns e2.
Proof. apply omap_app. Qed.

Lemma values_app (e1 e2 : list event) : values (e1 ++ e2) = values e1 ++ values e2.
Proof. apply omap_app. Qed.

Lemma bind_inv {A B} (m : M A) (f : A -> M B) self r self' evs :
  (m ≫= f) self = (r, self', evs) ->
  (exists e, m self = (Err e, self', evs) /\ r = Err e) \/
  (exists a self1 evs1 evs2,
      m self = (Ok a, self1, evs1) /\ f a self1 = (r, self', evs2) /\
      evs = evs1 ++ evs2).
Proof.
  unfold mbind, M_bind, bind.
  destruct (m self) as [[[a | e] self1] evs1].
  - destruct (f a self1) as [[r2 self2] evs2] eqn:Hf.
    intros [= <- <- <-]. right. exists a, self1, evs1, evs2. auto.
  - intros [= <- <- <-]. left. exists e. auto.
Qed.

Lemma lift_inv {A} (v : result A) self r self' evs :
  lift v self = (r, self', evs) -> r = v /\ self' = self /\ evs = [].
Proof. unfold lift. intros [= <- <- <-]. auto. Qed.

Lemma ret_inv {A} (a : A) self r self' evs :
  ret a self = (r, self', evs) -> r = Ok a /\ self' = self /\ evs = [].
Proof. unfold ret. intros [= <- <- <-]. auto. Qed.

Lemma raise_inv {A} (e : exn) self (r : result A) self' evs :
  raise e self = (r, self', evs) -> r = Err e /\ self' = self /\ evs = [].
Proof. unfold raise. intros [= <- <- <-]. auto. Qed.

(** Splits a run of a sequence into the run of its first step, failed or
    not, and the run of the rest. *)
Tactic Notation "step" hyp(H) "as" ident(a) ident(s) ident(e1) ident(e2) ident(H1) :=
  let Hr := fresh "Hr" in
  let He := fresh "He" in
  apply bind_inv in H;
  destruct H as [(? & H & Hr) | (a & s & e1 & e2 & H1 & H & He)];
  [ try discriminate Hr; try subst | try subst ].

Ltac leaf H :=
  first
    [ apply lift_inv in H; destruct H as (? & ? & ?)
    | apply ret_inv in H; destruct H as (? & ? & ?)
    | apply raise_inv in H; destruct H as (? & ? & ?) ];
  simplify_eq.

Lemma last_cons_default {A} (t : A) (ts : list A) (m : A) :
  List.last (t :: ts) m = List.last ts t.
Proof.
  revert t m. induction ts as [| u ts IH]; intros t m; [reflexivity |].
  change (List.last (t :: u :: ts) m) with (List.last (u :: ts) m).
  rewrite (IH u m), (IH u t). reflexivity.
Qed.

Lemma tracked_app m vs1 vs2 :
  tracked m vs1 -> tracked (last_tracker m vs1) vs2 -> tracked m (vs1 ++ vs2).
Proof.
  revert m. induction vs1 as [| [y t] vs1 IH]; intros m.
  - simpl. auto.
  - intros [-> H1] H2. split; [reflexivity |]. apply IH; [exact H1 |].
    unfold last_tracker in *. cbn [map snd] in H2.
    rewrite last_cons_default in H2. exact H2.
Qed.

Lemma last_tracker_app m vs1 vs2 :
  last_tracker m (vs1 ++ vs2) = last_tracker (last_tracker m vs1) vs2.
Proof.
  unfold last_tracker. rewrite map_app.
  destruct (map snd vs2) as [| t ts] eqn:E using rev_ind.
  - rewrite app_nil_r. reflexivity.
  - rewrite app_assoc, !last_last. reflexivity.
Qed.

Lemma inner_refl self : inner self self [].
Proof. repeat split. Qed.

Lemma inner_trans s1 s2 s3 e1 e2 :
  inner s1 s2 e1 -> inner s2 s3 e2 -> inner s1 s3 (e1 ++ e2).
Proof.
  intros (Hs1 & Hr1 & Ho1 & Ht1 & Hm1) (Hs2 & Hr2 & Ho2 & Ht2 & Hm2).
  unfold inner. rewrite solves_app, returns_app, values_app, Hs1, Hs2, Hr1, Hr2.
  repeat split.
  - congruence.
  - apply tracked_app; [exact Ht1 |]. rewrite <- Hm1. exact Ht2.
  - rewrite last_tracker_app, <- Hm1. exact Hm2.
Qed.

Section Callbacks.

Variable jacobian : (Tensor -> result float) -> Tensor -> result Tensor.
Variable hessian : (Tensor -> result float) -> Tensor -> result Tensor.
Variable scipy_minimize : OptimizeRequest -> solver_run.

Lemma obj_npy_run x args self :
  _obj_npy x args self =
  match _obj_tc self (requires_grad_ (from_numpy x) true) args with
  | Ok y => (Ok y, mk_Minimizer (_obj_tc self) (py_min y (min_obj self)),
             [EvValue y (py_min y (min_obj self))])
  | Err e => (Err e, self, [])
  end.
Proof.
  unfold _obj_npy, mbind, M_bind, bind, get_self, lift, set_min_obj, emit, ret.
  destruct (_obj_tc self _ args); reflexivity.
Qed.

Lemma jac_npy_state x args self :
  snd (fst (_jac_npy jacobian x args self)) = self /\
  snd (_jac_npy jacobian x args self) = [].
Proof.
  unfold _jac_npy, mbind, M_bind, bind, get_self, lift, ret.
  destruct (_obj_tc self _ args); simpl; [| auto].
  destruct (jacobian _ _); simpl; auto.
Qed.

Lemma hess_npy_state x args self :
  snd (fst (_hess_npy hessian x args self)) = self /\
  snd (_hess_npy hessian x args self) = [].
Proof.
  unfold _hess_npy, mbind, M_bind, bind, get_self, lift, ret.
  destruct (_obj_tc self _ args); simpl; [| auto].
  destruct (hessian _ _); simpl; auto.
Qed.

Lemma invoke_inner cb x args self r self' evs :
  invoke jacobian hessian cb x args self = (r, self', evs) -> inner self self' evs.
Proof.
  destruct cb; unfold invoke; intros H.
  - step H as y s1 e1 e2 H1.
    + rewrite obj_npy_run in H. destruct (_obj_tc self _ args); inversion H; subst.
      apply inner_refl.
    + leaf H. rewrite obj_npy_run in H1.
      destruct (_obj_tc self _ args); inversion H1; subst.
      repeat split.
  - destruct (jac_npy_state x args self) as [Hs He].
    step H as y s1 e1 e2 H1.
    + rewrite H in Hs, He. simpl in *. subst. apply inner_refl.
    + leaf H. rewrite H1 in Hs, He. simpl in *. subst. apply inner_refl.
  - destruct (hess_npy_state x args self) as [Hs He].
    step H as y s1 e1 e2 H1.
    + rewrite H in Hs, He. simpl in *. subst. apply inner_refl.
    + leaf H. rewrite H1 in Hs, He. simpl in *. subst. apply inner_refl.
Qed.

Lemma run_solver_inner req t : forall self r self' evs,
  run_solver jacobian hessian req t self = (r, self', evs) -> inner self self' evs.
Proof.
  induction t as [res | e | s x args k IH]; simpl; intros self r self' evs H.
  - leaf H. apply inner_refl.
  - leaf H. apply inner_refl.
  - destruct (slot_of req s) as [cb |].
    + step H as v s1 e1 e2 H1.
      * eapply invoke_inner; eauto.
      * eapply inner_trans; [eapply invoke_inner; eauto | eapply IH; eauto].
    + leaf H. apply inner_refl.
Qed.

Lemma solve_inv req self r self' evs :
  solve jacobian hessian scipy_minimize req self = (r, self', evs) ->
  exists evs',
    evs = EvSolve req :: evs' /\
    solves evs = [req] /\
    returns evs = match r with Ok res => [(req, res)] | Err _ => [] end /\
    _obj_tc self' = _obj_tc self /\
    tracked (min_obj self) (values evs) /\
    min_obj self' = last_tracker (min_obj self) (values evs).
Proof.
  unfold solve. intros H.
  step H as u s1 e1 e2 H1; [unfold emit in H; discriminate |].
  unfold emit in H1. inversion H1; subst; clear H1.
  step H as res s2 e3 e4 H2.
  - apply run_solver_inner in H. destruct H as (Hs & Hr & Ho & Ht & Hm).
    eexists. split; [reflexivity |]. simpl. rewrite Hs, Hr. auto 10.
  - apply run_solver_inner in H2. destruct H2 as (Hs & Hr & Ho & Ht & Hm).
    step H as u' s3 e5 e6 H3; [unfold emit in H; discriminate |].
    unfold emit in H3. inversion H3; subst; clear H3.
    leaf H.
    eexists. split; [reflexivity |]. simpl.
    rewrite !solves_app, !returns_app, !values_app, Hs, Hr. simpl.
    rewrite !app_nil_r. auto 10.
Qed.

End Callbacks.

Section Dispatch.

Variable jacobian : (Tensor -> result float) -> Tensor -> result Tensor.
Variable hessian : (Tensor -> result float) -> Tensor -> result Tensor.
Variable scipy_minimize : OptimizeRequest -> solver_run.

Variables (method : pyval) (jac hess : option callback) (options callback : pyval).

Lemma batch_loop_inv args bounds constraints tol rows :
  forall i all_res suc msg self r self' evs,
  batch_loop jacobian hessian scipy_minimize method jac hess options callback
             args bounds constraints tol i rows all_res suc msg self
  = (r, self', evs) ->
  _obj_tc self' = _obj_tc self /\
  tracked (min_obj self) (values evs) /\
  min_obj self' = last_tracker (min_obj self) (values evs) /\
  (forall k req, solves evs !! k = Some req ->
     exists x0_, rows !! k = Some x0_ /\
       instance_request method jac hess options callback
                        args bounds constraints tol (i + k) x0_ req) /\
  (forall k req res, returns evs !! k = Some (req, res) ->
     solves evs !! k = Some req) /\
  match r with
  | Ok (all_res', suc', msg') =>
      length (returns evs) = length rows /\
      all_res' = all_res ++ map (fun p => res_x (snd p)) (returns evs) /\
      suc' = suc ++ map (fun p => res_success (snd p)) (returns evs) /\
      msg' = msg ++ map (fun p => res_message (snd p)) (returns evs)
  | Err _ => True
  end.
Proof.
  induction rows as [| x0_ rows IH]; intros i all_res suc msg self r self' evs H.
  - simpl in H. leaf H. simpl. rewrite !app_nil_r.
    repeat split; intros; discriminate.
  - simpl in H.
    assert (Hnil : forall e : exn,
      _obj_tc self = _obj_tc self /\ tracked (min_obj self) (values []) /\
      min_obj self = last_tracker (min_obj self) (values []) /\
      (forall k req, solves [] !! k = Some req ->
         exists x, (x0_ :: rows) !! k = Some x /\
           instance_request method jac hess options callback
                            args bounds constraints tol (i + k) x req) /\
      (forall k req res, returns [] !! k = Some (req, res) ->
         solves [] !! k = Some req) /\ True).
    { intros _. repeat split; intros; discriminate. }
    step H as a s1 e1 e1' H1; [leaf H; apply (Hnil IndexError) |]. leaf H1.
    step H as b s2 e2 e2' H2; [leaf H; apply (Hnil IndexError) |]. leaf H2.
    step H as c s3 e3 e3' H3; [leaf H; apply (Hnil IndexError) |]. leaf H3.
    step H as t s4 e4 e4' H4; [leaf H; apply (Hnil IndexError) |]. leaf H4.
    clear Hnil. simpl.
    assert (Hreq : instance_request method jac hess options callback
                     args bounds constraints tol (i + 0) x0_
                     (mk_request Obj_npy x0_ a method jac hess b options c t callback)).
    { rewrite Nat.add_0_r. repeat split; simpl; auto. }
    step H as res s5 e5 e5' H5.
    + apply solve_inv in H. destruct H as (evs' & _ & Hs & Hr & Ho & Ht & Hm).
      rewrite Hs, Hr. repeat split; auto.
      * intros [| k] req Hk; [| discriminate]. inversion Hk; subst.
        exists x0_. split; [reflexivity | exact Hreq].
      * intros; discriminate.
    + apply solve_inv in H5. destruct H5 as (evs' & _ & Hs & Hr & Ho & Ht & Hm).
      apply IH in H. destruct H as (Ho2 & Ht2 & Hm2 & Hs2 & Hr2 & Hok).
      rewrite solves_app, returns_app, values_app, Hs, Hr.
      split; [congruence |].
      split; [apply tracked_app; [exact Ht | rewrite <- Hm; exact Ht2] |].
      split; [rewrite last_tracker_app, <- Hm; exact Hm2 |].
      split; [| split].
      * intros [| k] req Hk; simpl in Hk.
        -- inversion Hk; subst. exists x0_. split; [reflexivity | exact Hreq].
        -- apply Hs2 in Hk. destruct Hk as (x & Hx & Hi). exists x.
           split; [exact Hx |]. replace (i + S k) with (S i + k) by lia. exact Hi.
      * intros [| k] req res' Hk; simpl in Hk.
        -- inversion Hk; subst. reflexivity.
        -- simpl. eapply Hr2; eauto.
      * destruct r as [[[all_res' suc'] msg'] | e]; [| exact I].
        destruct Hok as (Hl & -> & -> & ->). simpl.
        rewrite <- !app_assoc. simpl. auto.
Qed.

Lemma batch_rows_length x0 b rows :
  batch_rows method x0 b rows -> length rows = b.
Proof.
  intros (Hb & x0' & Hx & Hrows). unfold shape0 in Hb.
  destruct (shape x0) as [| b' s] eqn:Hshape; [discriminate |].
  inversion Hb; subst b'. clear Hb.
  assert (Hs : exists s', shape x0' = b :: s').
  { destruct (py_eq method (VStr "trust-constr")).
    - unfold reshape_rows in Hx. destruct b; [discriminate |].
      destruct (Nat.eqb _ 0); [| discriminate]. inversion Hx. simpl. eauto.
    - inversion Hx; subst. eauto. }
  destruct Hs as (s' & Hs'). unfold iter_rows in Hrows. rewrite Hs' in Hrows.
  inversion Hrows. rewrite length_map, length_seq. reflexivity.
Qed.

Lemma minimize_single_inv args bounds constraints tol x0 suc msg self r self' evs :
  minimize_single jacobian hessian scipy_minimize method jac hess options callback
                  args bounds constraints tol x0 suc msg self = (r, self', evs) ->
  let req := mk_request Obj_npy (single_x0 method x0) args method jac hess bounds
                        options constraints tol callback in
  _obj_tc self' = _obj_tc self /\
  tracked (min_obj self) (values evs) /\
  min_obj self' = last_tracker (min_obj self) (values evs) /\
  solves evs = [req] /\
  match r with
  | Ok (res, suc', msg') =>
      exists sres, returns evs = [(req, sres)] /\ res = res_x sres /\
                   suc' = suc ++ [res_success sres] /\
                   msg' = msg ++ [res_message sres]
  | Err _ => returns evs = []
  end.
Proof.
  intros H req. unfold minimize_single in H. fold (single_x0 method x0) in H.
  step H as res s1 e1 e2 H1.
  - apply solve_inv in H. destruct H as (evs' & _ & Hs & Hr & Ho & Ht & Hm). auto 10.
  - apply solve_inv in H1. destruct H1 as (evs' & _ & Hs & Hr & Ho & Ht & Hm).
    leaf H. rewrite app_nil_r. repeat split; auto. exists res. auto.
Qed.

Lemma minimize_batch_inv args bounds constraints tol x0 suc msg self r self' evs :
  minimize_batch jacobian hessian scipy_minimize method jac hess options callback
                 args bounds constraints tol x0 suc msg self = (r, self', evs) ->
  _obj_tc self' = _obj_tc self /\
  tracked (min_obj self) (values evs) /\
  min_obj self' = last_tracker (min_obj self) (values evs) /\
  (forall k req, solves evs !! k = Some req ->
     exists b rows x0_,
       batch_rows method x0 b rows /\ rows !! k = Some x0_ /\
       instance_request method jac hess options callback
                        (batch_args b args) (batch_bounds b bounds)
                        (batch_constraints b constraints) (batch_tol b tol)
                        k x0_ req) /\
  (forall k req res, returns evs !! k = Some (req, res) ->
     solves evs !! k = Some req) /\
  match r with
  | Ok (res, suc', msg') =>
      exists b rows,
        batch_rows method x0 b rows /\ length (returns evs) = b /\
        np_array (map (fun p => res_x (snd p)) (returns evs)) = Ok res /\
        suc' = suc ++ map (fun p => res_success (snd p)) (returns evs) /\
        msg' = msg ++ map (fun p => res_message (snd p)) (returns evs)
  | Err _ => True
  end.
Proof.
  unfold minimize_batch. intros H.
  assert (Hnil :
    _obj_tc self = _obj_tc self /\ tracked (min_obj self) (values []) /\
    min_obj self = last_tracker (min_obj self) (values []) /\
    (forall k req, solves [] !! k = Some req ->
       exists b rows x0_,
         batch_rows method x0 b rows /\ rows !! k = Some x0_ /\
         instance_request method jac hess options callback
                          (batch_args b args) (batch_bounds b bounds)
                          (batch_constraints b constraints) (batch_tol b tol)
                          k x0_ req) /\
    (forall k req res, returns [] !! k = Some (req, res) ->
       solves [] !! k = Some req) /\ True).
  { repeat split; intros; discriminate. }
  step H as b s1 e1 e1' H1; [leaf H; exact Hnil |]. leaf H1.
  step H as x0' s2 e2 e2' H2.
  { destruct (py_eq method (VStr "trust-constr")); leaf H; exact Hnil. }
  assert (Hx : (if py_eq method (VStr "trust-constr")
                then reshape_rows x0 b else Ok x0) = Ok x0' /\ s2 = self /\ e2 = []).
  { destruct (py_eq method (VStr "trust-constr")); leaf H2; auto. }
  clear H2. destruct Hx as (Hx & -> & ->).
  step H as rows s3 e3 e3' H3; [leaf H; exact Hnil |]. leaf H3.
  clear Hnil.
  assert (Hrows : batch_rows method x0 b rows).
  { split; [congruence |]. exists x0'. split; congruence. }
  step H as acc s4 e4 e4' H4.
  - apply batch_loop_inv in H. destruct H as (Ho & Ht & Hm & Hs & Hr & _).
    simpl. repeat split; auto.
    intros k req Hk. apply Hs in Hk. destruct Hk as (x0_ & Hx0 & Hi).
    exists b, rows, x0_. auto.
  - destruct acc as [[all_res suc'] msg'].
    apply batch_loop_inv in H4. destruct H4 as (Ho & Ht & Hm & Hs & Hr & Hok).
    destruct Hok as (Hl & -> & -> & ->). simpl in H.
    assert (Hk : forall k req, solves e4 !! k = Some req ->
       exists b0 rows0 x0_,
         batch_rows method x0 b0 rows0 /\ rows0 !! k = Some x0_ /\
         instance_request method jac hess options callback
                          (batch_args b0 args) (batch_bounds b0 bounds)
                          (batch_constraints b0 constraints) (batch_tol b0 tol)
                          k x0_ req).
    { intros k req Hk. apply Hs in Hk. destruct Hk as (x0_ & Hx0 & Hi).
      exists b, rows, x0_. auto. }
    step H as res s5 e5 e5' H5.
    + leaf H. simpl. rewrite !app_nil_r. repeat split; auto.
    + leaf H5. leaf H. simpl. rewrite !app_nil_r. repeat split; auto.
      exists b, rows. split; [exact Hrows |].
      split; [rewrite Hl; eapply batch_rows_length; eauto |].
      split; [congruence | auto].
Qed.

End Dispatch.

Section Minimize.

Variable jacobian : (Tensor -> result float) -> Tensor -> result Tensor.
Variable hessian : (Tensor -> result float) -> Tensor -> result Tensor.
Variable scipy_minimize : OptimizeRequest -> solver_run.

(** The run of [minimize], path by path: the three early exits, then the
    reset of the tracker followed by one of the two branches and the final
    reshape. *)
Lemma minimize_inv x0 kwargs self r self' evs :
  minimize jacobian hessian scipy_minimize x0 kwargs self = (r, self', evs) ->
  match kwargs !! "args" with
  | None => r = Err (KeyError "args") /\ self' = self /\ evs = []
  | Some args =>
      if contains kwargs "hessp"
      then r = Err (NotImplementedError hessp_message) /\ self' = self /\ evs = []
      else
        match kwargs !! "batchwise" with
        | None => r = Err (KeyError "batchwise") /\ self' = self /\ evs = []
        | Some batchwise =>
            let method := get_or kwargs "method" VNone in
            exists rb,
              (if truthy batchwise then minimize_batch else minimize_single)
                jacobian hessian scipy_minimize method
                (resolve_jac kwargs method) (resolve_hess kwargs method)
                (get_or kwargs "options" VNone) (get_or kwargs "callback" VNone)
                args (get_or kwargs "bounds" VNone)
                (get_or kwargs "constraints" (VTuple []))
                (get_or kwargs "tol" VNone)
                (numpy (detach x0)) [] []
                (mk_Minimizer (_obj_tc self) inf)
              = (rb, self', evs) /\
              r = match rb with
                  | Ok (res, suc, msg) =>
                      match reshape res (shape (numpy (detach x0))) with
                      | Ok ans => Ok (from_numpy ans, suc, msg)
                      | Err e => Err e
                      end
                  | Err e => Err e
                  end
        end
  end.
Proof.
  unfold minimize, getitem. intros H.
  destruct (kwargs !! "args") as [args |].
  2:{ step H as a s1 e1 e1' H1; [leaf H; auto | leaf H1; congruence]. }
  step H as a s1 e1 e1' H1; [leaf H; congruence |]. leaf H1.
  destruct (contains kwargs "hessp").
  { step H as u s2 e2 e2' H2; [leaf H; auto | leaf H2; congruence]. }
  step H as u s2 e2 e2' H2; [leaf H; congruence |]. leaf H2.
  destruct (kwargs !! "batchwise") as [batchwise |].
  2:{ step H as bw s3 e3 e3' H3; [leaf H; auto | leaf H3; congruence]. }
  step H as bw s3 e3 e3' H3; [leaf H; congruence |]. leaf H3.
  step H as u' s4 e4 e4' H4; [unfold set_min_obj in H; discriminate |].
  unfold set_min_obj in H4. inversion H4; subst; clear H4.
  simpl.
  step H as acc s5 e5 e5' H5.
  - exists (Err x). split; [| reflexivity].
    destruct (truthy batchwise); exact H.
  - exists (Ok acc). destruct acc as [[res suc] msg]. simpl in H.
    split.
    + step H as ans s6 e6 e6' H6.
      * leaf H. rewrite app_nil_r. destruct (truthy batchwise); exact H5.
      * leaf H6. leaf H. rewrite !app_nil_r. destruct (truthy batchwise); exact H5.
    + step H as ans s6 e6 e6' H6.
      * leaf H. match goal with H : _ = reshape _ _ |- _ => rewrite <- H end.
        reflexivity.
      * leaf H6. leaf H.
        match goal with H : _ = reshape _ _ |- _ => rewrite <- H end.
        reflexivity.
Qed.

End Minimize.

(** ** Comparisons of Python values *)

Lemma py_eq_none v : py_eq v VNone = true <-> v = VNone.
Proof. destruct v; simpl; split; congruence. Qed.

Lemma py_eq_str v s : py_eq v (VStr s) = true <-> v = VStr s.
Proof.
  destruct v; simpl; split; try congruence.
  - intros H. apply String.eqb_eq in H. congruence.
  - intros [= ->]. apply String.eqb_refl.
Qed.

Lemma py_eq_empty_tuple v : py_eq v (VTuple []) = true <-> v = VTuple [].
Proof.
  destruct v as [| | | | l | l |]; simpl; split; try congruence.
  - destruct l; [reflexivity | discriminate].
  - intros [= ->]. reflexivity.
Qed.

Lemma py_eq_empty_list v : py_eq v (VList []) = true <-> v = VList [].
Proof.
  destruct v as [| | | | l | l |]; simpl; split; try congruence.
  - destruct l; [reflexivity | discriminate].
  - intros [= ->]. reflexivity.
Qed.

Lemma py_in_spec v names :
  py_in v names = true <-> exists s, In s names /\ v = VStr s.
Proof.
  unfold py_in. rewrite existsb_exists. split.
  - intros (s & Hs & Heq). exists s. split; [exact Hs |]. apply py_eq_str, Heq.
  - intros (s & Hs & Heq). exists s. split; [exact Hs |]. apply py_eq_str, Heq.
Qed.

Lemma given_none_spec (kwargs : gmap string pyval) key :
  given_none kwargs key = true <-> kwargs !! key = Some VNone.
Proof.
  unfold given_none. destruct (kwargs !! key) as [v |].
  - rewrite py_eq_none. split; congruence.
  - split; discriminate.
Qed.

Lemma py_index_replicate b v k w :
  py_index (VList (replicate b v)) k = Ok w -> w = v /\ k < b.
Proof.
  simpl. destruct (replicate b v !! k) as [u |] eqn:E; [| discriminate].
  intros [= <-]. apply lookup_replicate in E. exact E.
Qed.

(** ** Comparisons of floats *)

Lemma SFcompare_refl f : is_nan f = false -> SFcompare f f = Some Eq.
Proof.
  destruct f as [s | s | | s m e]; simpl; intros H; try discriminate.
  - reflexivity.
  - destruct s; reflexivity.
  - rewrite Z.compare_refl.
    pose proof (Pos.compare_refl m) as Hm. unfold Pos.compare in Hm. rewrite Hm.
    destruct s; reflexivity.
Qed.

Lemma SFcompare_antisym f g :
  SFcompare g f = option_map CompOpp (SFcompare f g).
Proof.
  destruct f as [s | s | | s m e], g as [s' | s' | | s' m' e']; simpl;
    try reflexivity;
    try (destruct s; reflexivity); try (destruct s'; reflexivity);
    try (destruct s, s'; reflexivity).
  destruct s, s'; simpl; try reflexivity.
  - rewrite (Z.compare_antisym e' e).
    destruct (e' ?= e)%Z; simpl; try reflexivity.
    pose proof (Pos.compare_cont_antisym m' m Eq) as Hp. simpl in Hp.
    rewrite <- Hp. destruct (Pos.compare_cont Eq m' m); reflexivity.
  - rewrite (Z.compare_antisym e' e).
    destruct (e' ?= e)%Z; simpl; try reflexivity.
    pose proof (Pos.compare_cont_antisym m' m Eq) as Hp. simpl in Hp.
    rewrite <- Hp. destruct (Pos.compare_cont Eq m' m); reflexivity.
Qed.

Lemma SFcompare_some f g :
  is_nan f = false -> is_nan g = false -> exists c, SFcompare f g = Some c.
Proof.
  destruct f, g; simpl; intros; try discriminate; eauto.
Qed.

(** On numbers, [min(y, m)] is below or equal to [m], and is a number. *)
Lemma py_min_le y m :
  is_nan y = false -> is_nan m = false ->
  SFleb (py_min y m) m = true /\ is_nan (py_min y m) = false.
Proof.
  intros Hy Hm. unfold py_min, SFltb, SFleb.
  destruct (SFcompare_some m y Hm Hy) as (c & Hc).
  pose proof (SFcompare_antisym m y) as Ha. rewrite Hc in Ha. simpl in Ha.
  rewrite Hc.
  destruct c; simpl in Ha; rewrite ?Ha, ?(SFcompare_refl m Hm); auto.
Qed.


Lemma SFleb_trans a b c :
  SFleb a b = true -> SFleb b c = true -> SFleb a c = true.
Proof.
  unfold SFleb.
  destruct a as [s | s | | s m e], b as [s' | s' | | s' m' e'],
           c as [s'' | s'' | | s'' m'' e'']; simpl;
    try discriminate; try reflexivity;
    try (destruct s; simpl; try discriminate; try reflexivity);
    try (destruct s'; simpl; try discriminate; try reflexivity);
    try (destruct s''; simpl; try discriminate; try reflexivity);
    change (Pos.compare_cont Eq) with Pos.compare;
    repeat match goal with
      | |- context [Z.compare ?x ?y] => destruct (Z.compare_spec x y); simpl
      | |- context [Pos.compare ?x ?y] => destruct (Pos.compare_spec x y); simpl
      end;
    intros; try discriminate; try reflexivity; try lia.
Qed.

Lemma tracked_non_increasing vs : forall m,
  is_nan m = false ->
  Forall (fun p => is_nan (fst p) = false) vs ->
  tracked m vs -> non_increasing (m :: map snd vs).
Proof.
  induction vs as [| [y t] vs IH]; intros m Hm Hall Ht.
  - intros [| i] [| j] ti tj Hij Hi Hj; simpl in *; try discriminate.
    simplify_eq. unfold SFleb. rewrite SFcompare_refl; auto.
  - destruct Ht as [-> Ht]. inversion Hall as [| p l Hy Hall']; subst. simpl in Hy.
    destruct (py_min_le y m Hy Hm) as [Hle Hnan].
    specialize (IH _ Hnan Hall' Ht).
    intros [| i] [| j] ti tj Hij Hi Hj; simpl in *; try lia.
    + simplify_eq. unfold SFleb. rewrite SFcompare_refl; auto.
    + injection Hi as <-.
      apply SFleb_trans with (b := py_min y m); [| exact Hle].
      apply (IH 0 j); [lia | reflexivity | exact Hj].
    + apply (IH i j); [lia | exact Hi | exact Hj].
Qed.

Lemma lookup_length_le {A B} (l : list A) (l' : list B) :
  (forall k x, l !! k = Some x -> is_Some (l' !! k)) -> length l <= length l'.
Proof.
  intros H. destruct (Nat.le_gt_cases (length l) (length l')) as [Hle | Hgt]; [exact Hle |].
  destruct (lookup_lt_is_Some_2 l (length l') Hgt) as [x Hx].
  apply H in Hx. apply lookup_lt_is_Some_1 in Hx. lia.
Qed.

Section Requests.

Variable jacobian : (Tensor -> result float) -> Tensor -> result Tensor.
Variable hessian : (Tensor -> result float) -> Tensor -> result Tensor.
Variable scipy_minimize : OptimizeRequest -> solver_run.

(** Every request of a call carries the method, the resolved callbacks,
    the options and the callback of that call. *)
Lemma minimize_requests x0 kwargs self r self' evs :
  minimize jacobian hessian scipy_minimize x0 kwargs self = (r, self', evs) ->
  forall req, In req (solves evs) ->
    req_fun req = Obj_npy /\
    req_method req = get_or kwargs "method" VNone /\
    req_jac req = resolve_jac kwargs (get_or kwargs "method" VNone) /\
    req_hess req = resolve_hess kwargs (get_or kwargs "method" VNone) /\
    req_options req = get_or kwargs "options" VNone /\
    req_callback req = get_or kwargs "callback" VNone.
Proof.
  intros H req Hin. apply minimize_inv in H.
  destruct (kwargs !! "args") as [args |];
    [| destruct H as (_ & _ & ->); destruct Hin].
  destruct (contains kwargs "hessp");
    [destruct H as (_ & _ & ->); destruct Hin |].
  destruct (kwargs !! "batchwise") as [bw |];
    [| destruct H as (_ & _ & ->); destruct Hin].
  destruct H as (rb & H & _).
  destruct (truthy bw).
  - apply minimize_batch_inv in H. destruct H as (_ & _ & _ & Hs & _).
    apply list_elem_of_In, list_elem_of_lookup in Hin. destruct Hin as (k & Hk).
    apply Hs in Hk. destruct Hk as (b & rows & x0_ & _ & _ & Hi).
    destruct Hi as (_ & _ & _ & _ & ->). simpl. auto 10.
  - apply minimize_single_inv in H. destruct H as (_ & _ & _ & Hs & _).
    rewrite Hs in Hin. destruct Hin as [<- | []]. simpl. auto 10.
Qed.

End Requests.

Section Claims.

Variable jacobian : (Tensor -> result float) -> Tensor -> result Tensor.
Variable hessian : (Tensor -> result float) -> Tensor -> result Tensor.
Variable scipy_minimize : OptimizeRequest -> solver_run.

Lemma batch_rows_fun method x0 b rows b' rows' :
  batch_rows method x0 b rows -> batch_rows method x0 b' rows' ->
  b' = b /\ rows' = rows.
Proof.
  intros (Hb & x & Hx & Hr) (Hb' & x' & Hx' & Hr').
  assert (b' = b) by congruence. subst b'.
  split; [reflexivity |]. congruence.
Qed.

Lemma get_or_method_str (kwargs : gmap string pyval) name :
  get_or kwargs "method" VNone = VStr name <-> kwargs !! "method" = Some (VStr name).
Proof.
  unfold get_or. destruct (kwargs !! "method"); split; congruence.
Qed.

Lemma resolve_jac_spec (kwargs : gmap string pyval) :
  (kwargs !! "jac" = Some VNone ->
   resolve_jac kwargs (get_or kwargs "method" VNone) = None) /\
  (kwargs !! "jac" <> Some VNone ->
   (resolve_jac kwargs (get_or kwargs "method" VNone) = Some Jac_npy <->
    exists name, In name jac_methods /\ kwargs !! "method" = Some (VStr name)) /\
   (resolve_jac kwargs (get_or kwargs "method" VNone) = None <->
    ~ exists name, In name jac_methods /\ kwargs !! "method" = Some (VStr name))).
Proof.
  unfold resolve_jac. split.
  - intros H. apply given_none_spec in H. rewrite H. reflexivity.
  - intros H.
    destruct (given_none kwargs "jac") eqn:E;
      [apply given_none_spec in E; contradiction |].
    destruct (py_in (get_or kwargs "method" VNone) jac_methods) eqn:Hin.
    + apply py_in_spec in Hin. destruct Hin as (name & Hname & Hm).
      apply get_or_method_str in Hm.
      split; split; try congruence; eauto.
      intros Hno. exfalso. apply Hno. eauto.
    + assert (Hno : ~ exists name, In name jac_methods /\
                      kwargs !! "method" = Some (VStr name)).
      { intros (name & Hname & Hm). apply get_or_method_str in Hm.
        assert (py_in (get_or kwargs "method" VNone) jac_methods = true)
          by (apply py_in_spec; eauto).
        congruence. }
      split; split; try congruence; try contradiction; auto.
Qed.

Lemma resolve_hess_spec (kwargs : gmap string pyval) :
  (kwargs !! "hess" = Some VNone ->
   resolve_hess kwargs (get_or kwargs "method" VNone) = None) /\
  (kwargs !! "hess" <> Some VNone ->
   (resolve_hess kwargs (get_or kwargs "method" VNone) = Some Hess_npy <->
    exists name, In name hess_methods /\ kwargs !! "method" = Some (VStr name)) /\
   (resolve_hess kwargs (get_or kwargs "method" VNone) = None <->
    ~ exists name, In name hess_methods /\ kwargs !! "method" = Some (VStr name))).
Proof.
  unfold resolve_hess. split.
  - intros H. apply given_none_spec in H. rewrite H. reflexivity.
  - intros H.
    destruct (given_none kwargs "hess") eqn:E;
      [apply given_none_spec in E; contradiction |].
    destruct (py_in (get_or kwargs "method" VNone) hess_methods) eqn:Hin.
    + apply py_in_spec in Hin. destruct Hin as (name & Hname & Hm).
      apply get_or_method_str in Hm.
      split; split; try congruence; eauto.
      intros Hno. exfalso. apply Hno. eauto.
    + assert (Hno : ~ exists name, In name hess_methods /\
                      kwargs !! "method" = Some (VStr name)).
      { intros (name & Hname & Hm). apply get_or_method_str in Hm.
        assert (py_in (get_or kwargs "method" VNone) hess_methods = true)
          by (apply py_in_spec; eauto).
        congruence. }
      split; split; try congruence; try contradiction; auto.
Qed.

(** C2. Whenever [minimize] returns normally, single-instance or batched,
    with any method ([trust-constr] and its flattening included), the
    solution tensor has the shape of [x0]. *)
Theorem minimize_solution_shape x0 kwargs self ans suc msg self' evs :
  minimize jacobian hessian scipy_minimize x0 kwargs self
  = (Ok (ans, suc, msg), self', evs) ->
  shape (t_array ans) = shape (t_array x0).
Proof.
  intros H. apply minimize_inv in H.
  destruct (kwargs !! "args") as [args |]; [| destruct H; discriminate].
  destruct (contains kwargs "hessp"); [destruct H; discriminate |].
  destruct (kwargs !! "batchwise") as [bw |]; [| destruct H; discriminate].
  destruct H as (rb & _ & Heq).
  destruct rb as [[[res suc'] msg'] | e]; [| discriminate].
  unfold reshape in Heq.
  destruct (Nat.eqb _ _); [| discriminate].
  injection Heq as -> _ _. reflexivity.
Qed.

(** C4. In every call, each request handed to the solver has no gradient
    callback when the configuration holds [jac=None]; otherwise it has the
    gradient callback [_jac_npy] exactly when the method is one of
    [jac_methods], and none when it is not. *)
Theorem minimize_jac_supplied x0 kwargs self r self' evs req :
  minimize jacobian hessian scipy_minimize x0 kwargs self = (r, self', evs) ->
  In req (solves evs) ->
  (kwargs !! "jac" = Some VNone -> req_jac req = None) /\
  (kwargs !! "jac" <> Some VNone ->
   (req_jac req = Some Jac_npy <->
    exists name, In name jac_methods /\ kwargs !! "method" = Some (VStr name)) /\
   (req_jac req = None <->
    ~ exists name, In name jac_methods /\ kwargs !! "method" = Some (VStr name))).
Proof.
  intros H Hin.
  destruct (minimize_requests _ _ _ _ _ _ _ _ _ H req Hin) as (_ & _ & -> & _).
  apply resolve_jac_spec.
Qed.

(** C5. In every call, each request handed to the solver has no Hessian
    callback when the configuration holds [hess=None]; otherwise it has the
    Hessian callback [_hess_npy] exactly when the method is one of
    [hess_methods]; and [hess_methods] is a strict subset of
    [jac_methods]. *)
Theorem minimize_hess_supplied x0 kwargs self r self' evs req :
  minimize jacobian hessian scipy_minimize x0 kwargs self = (r, self', evs) ->
  In req (solves evs) ->
  ((kwargs !! "hess" = Some VNone -> req_hess req = None) /\
   (kwargs !! "hess" <> Some VNone ->
    (req_hess req = Some Hess_npy <->
     exists name, In name hess_methods /\ kwargs !! "method" = Some (VStr name)) /\
    (req_hess req = None <->
     ~ exists name, In name hess_methods /\ kwargs !! "method" = Some (VStr name)))) /\
  (forall name, In name hess_methods -> In name jac_methods) /\
  (exists name, In name jac_methods /\ ~ In name hess_methods).
Proof.
  intros H Hin.
  destruct (minimize_requests _ _ _ _ _ _ _ _ _ H req Hin) as (_ & _ & _ & -> & _).
  split; [apply resolve_hess_spec |]. split.
  - intros name Hname. simpl in *. intuition auto.
  - exists "CG". split; [simpl; auto |].
    simpl. intros Hc. intuition discriminate.
Qed.

(** C6. Whenever [minimize] returns normally, [suc] and [msg] have the same
    length and hold the success flags and messages of the solver calls
    that returned, in order; in a batched call that length is the leading
    dimension [B] of [x0] and the [k]-th entry comes from the solve of row
    [k]; in a single-instance call it is 1. *)
Theorem minimize_success_message_length x0 kwargs self ans suc msg self' evs bw :
  minimize jacobian hessian scipy_minimize x0 kwargs self
  = (Ok (ans, suc, msg), self', evs) ->
  kwargs !! "batchwise" = Some bw ->
  length suc = length msg /\
  suc = map (fun p => res_success (snd p)) (returns evs) /\
  msg = map (fun p => res_message (snd p)) (returns evs) /\
  if truthy bw
  then exists B rows,
         shape0 (t_array x0) = Ok B /\
         batch_rows (get_or kwargs "method" VNone) (t_array x0) B rows /\
         length suc = B /\
         forall k req res, returns evs !! k = Some (req, res) ->
                           rows !! k = Some (req_x0 req)
  else length suc = 1.
Proof.
  intros H Hbw. apply minimize_inv in H. rewrite Hbw in H.
  destruct (kwargs !! "args") as [args |]; [| destruct H; discriminate].
  destruct (contains kwargs "hessp"); [destruct H; discriminate |].
  destruct H as (rb & H & Heq).
  destruct rb as [[[res suc'] msg'] | e]; [| discriminate].
  destruct (reshape res _); [| discriminate].
  injection Heq as _ <- <-.
  destruct (truthy bw).
  - apply minimize_batch_inv in H.
    destruct H as (_ & _ & _ & Hs & Hr & b & rows & Hrows & Hlen & _ & -> & ->).
    simpl. rewrite !length_map.
    repeat split; auto.
    exists b, rows. split; [apply Hrows |]. split; [exact Hrows |].
    split; [exact Hlen |].
    intros k req sres Hk. apply Hr, Hs in Hk.
    destruct Hk as (b' & rows' & x0_ & Hrows' & Hx & Hi).
    destruct (batch_rows_fun _ _ _ _ _ _ Hrows Hrows') as [-> ->].
    destruct Hi as (_ & _ & _ & _ & ->). exact Hx.
  - apply minimize_single_inv in H.
    destruct H as (_ & _ & _ & _ & sres & -> & _ & -> & ->). simpl. auto.
Qed.

(** C9. For every input vector and extra arguments, [_jac_npy] and
    [_hess_npy], called directly or by the solver, leave the object as it
    was, [min_obj] included, and log no evaluation; [_obj_npy] is the
    callback that stores [min(y, min_obj)], when the objective returns
    [y]. *)
Theorem jac_hess_npy_keep_min_obj x args self :
  snd (fst (_jac_npy jacobian x args self)) = self /\
  snd (fst (_hess_npy hessian x args self)) = self /\
  min_obj (snd (fst (invoke jacobian hessian Jac_npy x args self))) = min_obj self /\
  min_obj (snd (fst (invoke jacobian hessian Hess_npy x args self))) = min_obj self /\
  min_obj (snd (fst (_obj_npy x args self))) =
    match _obj_tc self (requires_grad_ (from_numpy x) true) args with
    | Ok y => py_min y (min_obj self)
    | Err _ => min_obj self
    end.
Proof.
  split; [apply jac_npy_state |]. split; [apply hess_npy_state |].
  split; [| split].
  - unfold invoke, _jac_npy, mbind, M_bind, bind, get_self, lift, ret.
    destruct (_obj_tc self _ args); simpl; [| reflexivity].
    destruct (jacobian _ _); reflexivity.
  - unfold invoke, _hess_npy, mbind, M_bind, bind, get_self, lift, ret.
    destruct (_obj_tc self _ args); simpl; [| reflexivity].
    destruct (hessian _ _); reflexivity.
  - rewrite obj_npy_run. destruct (_obj_tc self _ args); reflexivity.
Qed.

Lemma batch_bounds_index b v k w :
  py_index (batch_bounds b v) k = Ok w ->
  (v = VNone -> w = VNone) /\ (v <> VNone -> py_index v k = Ok w).
Proof.
  unfold batch_bounds. destruct v; simpl is_none; cbv iota; intros H;
    split; intros; try congruence.
  apply py_index_replicate in H. tauto.
Qed.

Lemma batch_tol_index b v k w :
  py_index (batch_tol b v) k = Ok w ->
  (v = VNone -> w = VNone) /\ (v <> VNone -> py_index v k = Ok w).
Proof.
  unfold batch_tol. destruct v; simpl is_none; cbv iota; intros H;
    split; intros; try congruence.
  apply py_index_replicate in H. tauto.
Qed.

Lemma batch_constraints_index b v k w :
  py_index (batch_constraints b v) k = Ok w ->
  (v = VTuple [] -> w = VTuple []) /\ (v <> VTuple [] -> py_index v k = Ok w).
Proof.
  unfold batch_constraints.
  destruct (py_eq v (VTuple [])) eqn:E; intros H.
  - apply py_index_replicate in H. apply py_eq_empty_tuple in E. split; tauto.
  - split; [| auto]. intros Hv. apply py_eq_empty_tuple in Hv. congruence.
Qed.

Lemma batch_args_index b v k w :
  py_index (batch_args b v) k = Ok w ->
  (v = VTuple [] \/ v = VList [] \/ v = VNone -> w = VNone) /\
  (~ (v = VTuple [] \/ v = VList [] \/ v = VNone) -> py_index v k = Ok w).
Proof.
  unfold batch_args.
  destruct (py_eq v (VTuple []) || py_eq v (VList []) || is_none v) eqn:E; intros H.
  - apply py_index_replicate in H. split; [tauto |].
    intros Hn. exfalso. apply Hn.
    apply orb_true_iff in E. destruct E as [E | E].
    + apply orb_true_iff in E. destruct E as [E | E].
      * left. apply py_eq_empty_tuple, E.
      * right. left. apply py_eq_empty_list, E.
    + right. right. destruct v; simpl in E; congruence.
  - split; [| auto]. intros Hv. exfalso.
    apply orb_false_iff in E. destruct E as [E E3].
    apply orb_false_iff in E. destruct E as [E1 E2].
    destruct Hv as [-> | [-> | ->]]; simpl in *; discriminate.
Qed.

(** C3, amended. Whenever the key [hessp] is present, [minimize] raises
    without any call of the solver and without touching the object; the
    exception is the unsupported-capability error when the key [args] is
    present too, and the key-lookup error of [args] when it is not. *)
Theorem minimize_hessp_raises x0 kwargs self r self' evs :
  minimize jacobian hessian scipy_minimize x0 kwargs self = (r, self', evs) ->
  is_Some (kwargs !! "hessp") ->
  solves evs = [] /\ evs = [] /\ self' = self /\
  (is_Some (kwargs !! "args") -> r = Err (NotImplementedError hessp_message)) /\
  (kwargs !! "args" = None -> r = Err (KeyError "args")).
Proof.
  intros H [v Hv]. apply minimize_inv in H.
  unfold contains in H. rewrite Hv in H.
  destruct (kwargs !! "args") as [args |]; destruct H as (-> & -> & ->);
    repeat split; auto; try discriminate.
  intros [w Hw]. discriminate.
Qed.

(** C10, amended. A call that omits [args] fails with the key-lookup error
    of [args] before anything else is done.  A call that has [args] and
    omits [batchwise] fails before any solve, with the key-lookup error of
    [batchwise] unless [hessp] is present, in which case the
    unsupported-capability error is raised instead.  The eight other
    options have defaults: a single-instance call that omits them all
    hands the solver one request made of those defaults. *)
Theorem minimize_required_keys x0 kwargs self r self' evs :
  minimize jacobian hessian scipy_minimize x0 kwargs self = (r, self', evs) ->
  (kwargs !! "args" = None ->
   r = Err (KeyError "args") /\ self' = self /\ evs = []) /\
  (is_Some (kwargs !! "args") -> kwargs !! "batchwise" = None ->
   r = (if contains kwargs "hessp"
        then Err (NotImplementedError hessp_message)
        else Err (KeyError "batchwise")) /\
   self' = self /\ evs = []) /\
  (forall args bw,
     kwargs !! "args" = Some args -> kwargs !! "batchwise" = Some bw ->
     truthy bw = false -> kwargs !! "hessp" = None ->
     (forall key, In key optional_keys -> kwargs !! key = None) ->
     solves evs = [mk_request Obj_npy (t_array x0) args VNone None None
                              VNone VNone (VTuple []) VNone VNone]).
Proof.
  intros H. apply minimize_inv in H. split; [| split].
  - intros Ha. rewrite Ha in H. exact H.
  - intros [args Ha] Hb. rewrite Ha, Hb in H.
    destruct (contains kwargs "hessp"); exact H.
  - intros args bw Ha Hb Ht Hp Hopt. unfold contains in H.
    rewrite Ha, Hp, Hb, Ht in H. destruct H as (rb & H & _).
    apply minimize_single_inv in H. destruct H as (_ & _ & _ & Hs & _).
    rewrite Hs. unfold single_x0, resolve_jac, resolve_hess, given_none, get_or.
    rewrite (Hopt "method"), (Hopt "jac"), (Hopt "hess"), (Hopt "bounds"),
      (Hopt "options"), (Hopt "constraints"), (Hopt "tol"), (Hopt "callback")
      by (simpl; auto 10).
    reflexivity.
Qed.

(** C7, amended. A single-instance call that gets past the key checks makes
    exactly one call of the solver, with [args], [bounds], [constraints]
    and [tol] as they were given (no replication into sequences), and with
    [x0] as given unless the method is [trust-constr], in which case [x0]
    is flattened to one dimension first. *)
Theorem minimize_single_request x0 kwargs self r self' evs args bw :
  minimize jacobian hessian scipy_minimize x0 kwargs self = (r, self', evs) ->
  kwargs !! "args" = Some args -> kwargs !! "hessp" = None ->
  kwargs !! "batchwise" = Some bw -> truthy bw = false ->
  let method := get_or kwargs "method" VNone in
  let req :=
    mk_request Obj_npy
      (if py_eq method (VStr "trust-constr")
       then reshape_flat (t_array x0) else t_array x0)
      args method (resolve_jac kwargs method) (resolve_hess kwargs method)
      (get_or kwargs "bounds" VNone) (get_or kwargs "options" VNone)
      (get_or kwargs "constraints" (VTuple [])) (get_or kwargs "tol" VNone)
      (get_or kwargs "callback" VNone) in
  solves evs = [req] /\
  (method <> VStr "trust-constr" -> req_x0 req = t_array x0) /\
  (method = VStr "trust-constr" -> req_x0 req = reshape_flat (t_array x0)) /\
  match r with
  | Ok (ans, suc, msg) =>
      exists res, returns evs = [(req, res)] /\
                  reshape (res_x res) (shape (t_array x0)) = Ok (t_array ans) /\
                  suc = [res_success res] /\ msg = [res_message res]
  | Err _ => True
  end.
Proof.
  intros H Ha Hp Hb Ht method req. apply minimize_inv in H. unfold contains in H.
  rewrite Ha, Hp, Hb, Ht in H. destruct H as (rb & H & Hr).
  apply minimize_single_inv in H. destruct H as (_ & _ & _ & Hs & Hret).
  split; [exact Hs |]. split; [| split].
  - intros Hm. simpl.
    destruct (py_eq method (VStr "trust-constr")) eqn:E; [| reflexivity].
    apply py_eq_str in E. contradiction.
  - intros Hm. simpl. fold method. rewrite Hm. reflexivity.
  - destruct r as [[[ans suc] msg] | e]; [| exact I].
    destruct rb as [[[res suc'] msg'] | e]; [| discriminate].
    destruct Hret as (sres & Hret & -> & -> & ->).
    destruct (reshape (res_x sres) _) as [a |] eqn:E; [| discriminate].
    injection Hr as -> -> ->. exists sres. auto.
Qed.

(** C1, amended. In a batched call with batch size [B], the [k]-th call of
    the solver is made for row [k] of [x0], with [k < B], and with the
    [k]-th element of each of the four normalized sequences.  Only the
    defaults are replicated: [bounds] and [tol] that are [None] and
    [constraints] that is [()] become [B] copies of that value, so that
    instance receives that same value, and [args] that is [()], [[]] or
    [None] becomes a sequence of length [B].  Any other value is not
    replicated: it is indexed as it is, and the instance receives its
    [k]-th element.  When the call returns normally there were [B] calls
    of the solver. *)
Theorem minimize_batch_instances x0 kwargs self r self' evs args bw :
  minimize jacobian hessian scipy_minimize x0 kwargs self = (r, self', evs) ->
  kwargs !! "args" = Some args ->
  kwargs !! "batchwise" = Some bw -> truthy bw = true ->
  let method := get_or kwargs "method" VNone in
  let bounds := get_or kwargs "bounds" VNone in
  let constraints := get_or kwargs "constraints" (VTuple []) in
  let tol := get_or kwargs "tol" VNone in
  (forall k req, solves evs !! k = Some req ->
     exists B rows,
       batch_rows method (t_array x0) B rows /\ k < B /\
       rows !! k = Some (req_x0 req) /\
       (py_index (batch_args B args) k = Ok (req_args req) /\
        py_index (batch_bounds B bounds) k = Ok (req_bounds req) /\
        py_index (batch_constraints B constraints) k = Ok (req_constraints req) /\
        py_index (batch_tol B tol) k = Ok (req_tol req)) /\
       ((bounds = VNone -> req_bounds req = VNone) /\
        (constraints = VTuple [] -> req_constraints req = VTuple []) /\
        (tol = VNone -> req_tol req = VNone) /\
        (args = VTuple [] \/ args = VList [] \/ args = VNone ->
         exists l, batch_args B args = VList l /\ length l = B)) /\
       ((bounds <> VNone -> py_index bounds k = Ok (req_bounds req)) /\
        (~ (args = VTuple [] \/ args = VList [] \/ args = VNone) ->
         py_index args k = Ok (req_args req)) /\
        (constraints <> VTuple [] ->
         py_index constraints k = Ok (req_constraints req)) /\
        (tol <> VNone -> py_index tol k = Ok (req_tol req)))) /\
  (forall v, r = Ok v ->
     exists B, shape0 (t_array x0) = Ok B /\ length (solves evs) = B).
Proof.
  intros H Ha Hb Ht method bounds constraints tol.
  apply minimize_inv in H. rewrite Ha, Hb, Ht in H.
  destruct (contains kwargs "hessp").
  { destruct H as (-> & _ & ->). split; [| discriminate].
    intros k req Hk. destruct k; discriminate. }
  destruct H as (rb & H & Hr).
  apply minimize_batch_inv in H. destruct H as (_ & _ & _ & Hs & Hret & Hok).
  split.
  - intros k req Hk. apply Hs in Hk.
    destruct Hk as (B & rows & x0_ & Hrows & Hx & Hi).
    destruct Hi as (Hia & Hib & Hic & Hit & Hreq).
    exists B, rows. split; [exact Hrows |].
    split; [rewrite <- (batch_rows_length _ _ _ _ Hrows); eapply lookup_lt_Some; eauto |].
    split; [rewrite Hreq; exact Hx |].
    split; [auto |].
    pose proof (batch_args_index _ _ _ _ Hia) as Ha'.
    pose proof (batch_bounds_index _ _ _ _ Hib) as Hb'.
    pose proof (batch_constraints_index _ _ _ _ Hic) as Hc'.
    pose proof (batch_tol_index _ _ _ _ Hit) as Ht'.
    split; [| tauto].
    split; [tauto |]. split; [tauto |]. split; [tauto |].
    intros Hdef. exists (replicate B VNone).
    split; [| apply length_replicate].
    unfold batch_args. destruct Hdef as [-> | [-> | ->]]; reflexivity.
  - intros v ->. destruct rb as [[[res suc] msg] | e]; [| discriminate].
    destruct Hok as (B & rows & Hrows & Hlen & _).
    exists B. split; [apply Hrows |].
    apply Nat.le_antisymm.
    + rewrite <- (batch_rows_length _ _ _ _ Hrows).
      apply lookup_length_le. intros k req Hk. apply Hs in Hk.
      destruct Hk as (B' & rows' & x0_ & Hrows' & Hx & _).
      destruct (batch_rows_fun _ _ _ _ _ _ Hrows Hrows') as [-> ->]. eauto.
    + rewrite <- Hlen. apply lookup_length_le.
      intros k [req sres] Hk. apply Hret in Hk. eauto.
Qed.

(** C8, amended. In every call, the first value evaluation finds the
    tracker at [+infinity] and every value evaluation stores
    [min(y, current)], Python's [min]; when none of the observed values is
    a NaN the tracker never goes up along the evaluations of the call,
    batch instances included; after a normal return [min_obj] is the last
    stored value. *)
Theorem minimize_min_obj_tracking x0 kwargs self r self' evs :
  minimize jacobian hessian scipy_minimize x0 kwargs self = (r, self', evs) ->
  tracked inf (values evs) /\
  (Forall (fun p => is_nan (fst p) = false) (values evs) ->
   non_increasing (inf :: map snd (values evs))) /\
  (forall v, r = Ok v -> min_obj self' = last_tracker inf (values evs)).
Proof.
  intros H. apply minimize_inv in H.
  assert (Hgoal : tracked inf (values evs) /\
                  (forall v, r = Ok v -> min_obj self' = last_tracker inf (values evs))).
  { destruct (kwargs !! "args") as [args |];
      [| destruct H as (-> & _ & ->); split; [exact I | discriminate]].
    destruct (contains kwargs "hessp");
      [destruct H as (-> & _ & ->); split; [exact I | discriminate] |].
    destruct (kwargs !! "batchwise") as [bw |];
      [| destruct H as (-> & _ & ->); split; [exact I | discriminate]].
    destruct H as (rb & H & _).
    destruct (truthy bw).
    - apply minimize_batch_inv in H. destruct H as (_ & Ht & Hm & _). auto.
    - apply minimize_single_inv in H. destruct H as (_ & Ht & Hm & _). auto. }
  destruct Hgoal as [Ht Hm]. split; [exact Ht |]. split; [| exact Hm].
  intros Hall. apply tracked_non_increasing; auto.
Qed.

End Claims.

(** ** The sample calls *)

Lemma minimize_solution_shape_witness :
  exists ans suc msg self' evs,
    demo_run first_objective x23 kw_single_trust = (Ok (ans, suc, msg), self', evs) /\
    shape (t_array ans) = [2; 3].
Proof.
  do 5 eexists.
  match goal with |- ?A /\ _ => assert (Hrun : A) by (vm_compute; reflexivity) end.
  split; [exact Hrun |].
  exact (minimize_solution_shape _ _ _ _ _ _ _ _ _ _ _ Hrun).
Defined.

Lemma minimize_jac_supplied_witness :
  exists r self' evs req,
    demo_run first_objective x23 kw_single_bfgs = (r, self', evs) /\
    In req (solves evs) /\
    req_jac req = Some Jac_npy.
Proof.
  do 4 eexists.
  match goal with |- ?A /\ _ => assert (Hrun : A) by (vm_compute; reflexivity) end.
  split; [exact Hrun |].
  match goal with |- ?A /\ _ => assert (Hin : A) by (left; reflexivity) end.
  split; [exact Hin |].
  apply (minimize_jac_supplied _ _ _ _ _ _ _ _ _ _ Hrun Hin).
  - vm_compute. discriminate.
  - exists "BFGS". split; [simpl; auto | vm_compute; reflexivity].
Defined.

Lemma minimize_hess_supplied_witness :
  exists r self' evs req,
    demo_run first_objective x23 kw_single_newton = (r, self', evs) /\
    In req (solves evs) /\
    req_hess req = Some Hess_npy.
Proof.
  do 4 eexists.
  match goal with |- ?A /\ _ => assert (Hrun : A) by (vm_compute; reflexivity) end.
  split; [exact Hrun |].
  match goal with |- ?A /\ _ => assert (Hin : A) by (left; reflexivity) end.
  split; [exact Hin |].
  apply (minimize_hess_supplied _ _ _ _ _ _ _ _ _ _ Hrun Hin).
  - vm_compute. discriminate.
  - exists "Newton-CG". split; [simpl; auto | vm_compute; reflexivity].
Defined.

Lemma minimize_success_message_length_witness :
  exists ans suc msg self' evs,
    demo_run first_objective x3 kw_batch = (Ok (ans, suc, msg), self', evs) /\
    kw kw_batch !! "batchwise" = Some (VBool true) /\
    length suc = length msg /\ length suc = 3.
Proof.
  do 5 eexists.
  match goal with |- ?A /\ _ => assert (Hrun : A) by (vm_compute; reflexivity) end.
  split; [exact Hrun |].
  match goal with |- ?A /\ _ => assert (Hbw : A) by (vm_compute; reflexivity) end.
  split; [exact Hbw |].
  destruct (minimize_success_message_length _ _ _ _ _ _ _ _ _ _ _ _ Hrun Hbw)
    as (Hlen & _ & _ & B & rows & HB & _ & HlenB & _).
  split; [exact Hlen |].
  rewrite HlenB. vm_compute in HB. congruence.
Defined.

Lemma minimize_hessp_raises_witness :
  exists r self' evs,
    demo_run first_objective x23 kw_args_hessp = (r, self', evs) /\
    is_Some (kw kw_args_hessp !! "hessp") /\
    r = Err (NotImplementedError hessp_message) /\ solves evs = [].
Proof.
  do 3 eexists.
  match goal with |- ?A /\ _ => assert (Hrun : A) by (vm_compute; reflexivity) end.
  split; [exact Hrun |].
  assert (Hp : is_Some (kw kw_args_hessp !! "hessp")) by (exists (VInt 1); vm_compute; reflexivity).
  split; [exact Hp |].
  destruct (minimize_hessp_raises _ _ _ _ _ _ _ _ _ Hrun Hp) as (Hs & _ & _ & Ha & _).
  split; [| exact Hs].
  apply Ha. exists (VTuple []). vm_compute. reflexivity.
Defined.

Lemma minimize_required_keys_witness :
  exists r self' evs,
    demo_run first_objective x23 kw_no_args = (r, self', evs) /\
    kw kw_no_args !! "args" = None /\
    r = Err (KeyError "args") /\ evs = [].
Proof.
  do 3 eexists.
  match goal with |- ?A /\ _ => assert (Hrun : A) by (vm_compute; reflexivity) end.
  split; [exact Hrun |].
  assert (Ha : kw kw_no_args !! "args" = None) by (vm_compute; reflexivity).
  split; [exact Ha |].
  destruct (minimize_required_keys _ _ _ _ _ _ _ _ _ Hrun) as (H1 & _).
  destruct (H1 Ha) as (Hr & _ & He). split; assumption.
Defined.

Lemma minimize_single_request_witness :
  exists r self' evs req,
    demo_run first_objective x23 kw_single_bfgs = (r, self', evs) /\
    kw kw_single_bfgs !! "args" = Some (VTuple []) /\
    kw kw_single_bfgs !! "hessp" = None /\
    kw kw_single_bfgs !! "batchwise" = Some (VBool false) /\
    truthy (VBool false) = false /\
    solves evs = [req] /\
    req_x0 req = t_array x23 /\ req_args req = VTuple [] /\
    req_bounds req = VNone /\ req_constraints req = VTuple [] /\
    req_tol req = VNone.
Proof.
  do 4 eexists.
  match goal with |- ?A /\ _ => assert (Hrun : A) by (vm_compute; reflexivity) end.
  split; [exact Hrun |].
  assert (Ha : kw kw_single_bfgs !! "args" = Some (VTuple [])) by (vm_compute; reflexivity).
  assert (Hp : kw kw_single_bfgs !! "hessp" = None) by (vm_compute; reflexivity).
  assert (Hb : kw kw_single_bfgs !! "batchwise" = Some (VBool false))
    by (vm_compute; reflexivity).
  assert (Ht : truthy (VBool false) = false) by reflexivity.
  split; [exact Ha |]. split; [exact Hp |]. split; [exact Hb |]. split; [exact Ht |].
  destruct (minimize_single_request _ _ _ _ _ _ _ _ _ _ _ Hrun Ha Hp Hb Ht)
    as (Hs & _).
  split; [exact Hs |]. vm_compute. auto 10.
Defined.

Lemma minimize_batch_instances_witness :
  exists r self' evs req,
    demo_run first_objective x3 kw_batch = (r, self', evs) /\
    kw kw_batch !! "args" = Some (VTuple []) /\
    kw kw_batch !! "batchwise" = Some (VBool true) /\
    truthy (VBool true) = true /\
    solves evs !! 2 = Some req /\
    req_bounds req = VNone /\
    req_constraints req = VTuple [] /\ req_tol req = VNone /\
    length (solves evs) = 3.
Proof.
  do 4 eexists.
  match goal with |- ?A /\ _ => assert (Hrun : A) by (vm_compute; reflexivity) end.
  split; [exact Hrun |].
  assert (Ha : kw kw_batch !! "args" = Some (VTuple [])) by (vm_compute; reflexivity).
  assert (Hb : kw kw_batch !! "batchwise" = Some (VBool true)) by (vm_compute; reflexivity).
  assert (Ht : truthy (VBool true) = true) by reflexivity.
  split; [exact Ha |]. split; [exact Hb |]. split; [exact Ht |].
  match goal with |- ?A /\ _ => assert (Hk : A) by (vm_compute; reflexivity) end.
  split; [exact Hk |].
  destruct (minimize_batch_instances _ _ _ _ _ _ _ _ _ _ _ Hrun Ha Hb Ht)
    as (Hreq & Hlen).
  destruct (Hreq _ _ Hk) as (B & rows & _ & _ & _ & _ & (Hbd & Hc & Htol & _) & _).
  split; [apply Hbd; vm_compute; reflexivity |].
  split; [apply Hc; vm_compute; reflexivity |].
  split; [apply Htol; vm_compute; reflexivity |].
  destruct (Hlen _ eq_refl) as (B' & HB & ->). vm_compute in HB. congruence.
Defined.

Lemma minimize_min_obj_tracking_witness :
  exists r self' evs,
    demo_run first_objective x3 kw_batch = (r, self', evs) /\
    Forall (fun p => is_nan (fst p) = false) (values evs) /\
    non_increasing (inf :: map snd (values evs)) /\
    min_obj self' = f_neg_one.
Proof.
  do 3 eexists.
  match goal with |- ?A /\ _ => assert (Hrun : A) by (vm_compute; reflexivity) end.
  split; [exact Hrun |].
  match goal with |- ?A /\ _ =>
    assert (Hall : A) by (vm_compute; repeat constructor) end.
  split; [exact Hall |].
  destruct (minimize_min_obj_tracking _ _ _ _ _ _ _ _ _ Hrun) as (_ & Hmono & Hlast).
  split; [exact (Hmono Hall) |].
  rewrite (Hlast _ eq_refl). vm_compute. reflexivity.
Defined.

(** ** The sample calls that go another way *)

Example batch_scalar_tol_raises :
  fst (fst (demo_run first_objective x3 kw_batch_tol)) = Err TypeError /\
  solves (snd (demo_run first_objective x3 kw_batch_tol)) = [].
Proof. vm_compute. split; reflexivity. Qed.

Example hessp_alone_raises_key_error :
  fst (fst (demo_run first_objective x23 kw_hessp)) = Err (KeyError "args").
Proof. vm_compute. reflexivity. Qed.

Example args_hessp_raises_not_implemented :
  fst (fst (demo_run first_objective x23 kw_args_hessp))
  = Err (NotImplementedError hessp_message).
Proof. vm_compute. reflexivity. Qed.

Example single_trust_constr_request_shape :
  map (fun req => shape (req_x0 req))
      (solves (snd (demo_run first_objective x23 kw_single_trust))) = [[6]] /\
  shape (t_array x23) = [2; 3].
Proof. vm_compute. split; reflexivity. Qed.

Example nan_objective_trackers :
  values (snd (demo_run demo_objective x3 kw_batch))
  = [(f_one, f_one); (S754_nan, S754_nan); (f_five, f_five)] /\
  SFltb f_one f_five = true.
Proof. vm_compute. split; reflexivity. Qed.

Example sample_floats_are_binary64 :
  forallb (valid_binary 53 1024) [f_zero; f_one; f_neg_one; f_two; f_five; inf] = true.
Proof. vm_compute. reflexivity. Qed.

(** ** Where the code departs from the specification *)

(** C1: a tolerance given as one number for all instances is not
    replicated: it is indexed, the call raises and no instance is
    solved. *)
Lemma minimize_batch_scalar_not_replicated :
  ~ (let evs := snd (demo_run first_objective x3 kw_batch_tol) in
     length (solves evs) = 3 /\
     Forall (fun req => req_tol req = VInt 1) (solves evs)).
Proof.
  intros [Hlen _]. vm_compute in Hlen. discriminate.
Qed.

(** C3: with [hessp] present and [args] absent, the exception is the
    key-lookup error of [args]. *)
Lemma minimize_hessp_without_args :
  ~ (is_Some (kw kw_hessp !! "hessp") ->
     fst (fst (demo_run first_objective x23 kw_hessp))
     = Err (NotImplementedError hessp_message)).
Proof.
  intros H.
  assert (Hp : is_Some (kw kw_hessp !! "hessp"))
    by (exists (VInt 1); vm_compute; reflexivity).
  specialize (H Hp). vm_compute in H. discriminate.
Qed.

(** C7: with [trust-constr] the single-instance branch flattens [x0]
    before it calls the solver. *)
Lemma minimize_single_trust_constr_flattens :
  ~ (forall req,
       In req (solves (snd (demo_run first_objective x23 kw_single_trust))) ->
       req_x0 req = t_array x23).
Proof.
  intros H.
  assert (Hs : exists req,
             In req (solves (snd (demo_run first_objective x23 kw_single_trust))) /\
             shape (req_x0 req) = [6]).
  { eexists. split; [vm_compute; left; reflexivity | reflexivity]. }
  destruct Hs as (req & Hin & Hshape).
  apply H in Hin. rewrite Hin in Hshape. discriminate.
Qed.

(** C8: an objective value that is a NaN replaces the tracker, and the
    next number replaces the NaN: over the rows 1, -1, 5 the tracker goes
    1, NaN, 5. *)
Lemma minimize_min_obj_goes_up :
  ~ non_increasing
      (inf :: map snd (values (snd (demo_run demo_objective x3 kw_batch)))).
Proof.
  intros H.
  assert (E : inf :: map snd (values (snd (demo_run demo_objective x3 kw_batch)))
              = [inf; f_one; S754_nan; f_five]) by (vm_compute; reflexivity).
  rewrite E in H.
  specialize (H 1 3 f_one f_five).
  assert (Hle : SFleb f_five f_one = true) by (apply H; [lia | reflexivity | reflexivity]).
  vm_compute in Hle. discriminate.
Qed.

(** C10: with [args] and [hessp] present and [batchwise] absent, the
    exception is not a key-lookup error. *)
Lemma minimize_batchwise_missing_with_hessp :
  ~ (kw kw_args_hessp !! "batchwise" = None ->
     exists key,
       fst (fst (demo_run first_objective x23 kw_args_hessp)) = Err (KeyError key)).
Proof.
  intros H.
  assert (Hb : kw kw_args_hessp !! "batchwise" = None) by (vm_compute; reflexivity).
  destruct (H Hb) as (key & Hkey). vm_compute in Hkey. discriminate.
Qed.

(** ** Lists and arrays *)

Lemma lookup_map_inv {A B} (f : A -> B) (l : list A) k y :
  map f l !! k = Some y -> exists x, l !! k = Some x /\ y = f x.
Proof.
  revert k. induction l as [| a l IH]; intros [| k] H; simpl in H; try discriminate.
  - injection H as <-. exists a. auto.
  - apply IH in H. exact H.
Qed.

(** Cutting a list into [b] chunks of length [k] and gluing them gives
    the list back. *)
Lemma concat_chunks {A} b k : forall d : list A,
  length d = b * k ->
  concat (map (fun i => take k (drop (i * k) d)) (seq 0 b)) = d.
Proof.
  induction b as [| b IH]; intros d Hlen.
  - simpl in *. destruct d; [reflexivity | discriminate].
  - cbn [seq map concat]. rewrite <- seq_shift, map_map.
    rewrite (map_ext _ (fun i => take k (drop (i * k) (drop k d)))).
    2:{ intros i. rewrite drop_drop. reflexivity. }
    rewrite IH.
    + simpl. apply take_drop.
    + rewrite length_drop. simpl in Hlen. lia.
Qed.

Lemma iter_rows_concat a rows :
  well_formed a -> iter_rows a = Ok rows -> concat (map data rows) = data a.
Proof.
  unfold well_formed, iter_rows. intros Hwf H.
  destruct (shape a) as [| b s]; [discriminate |].
  injection H as <-. rewrite map_map. simpl.
  apply concat_chunks. simpl in Hwf. exact Hwf.
Qed.

Lemma reshape_rows_well_formed a b a' :
  well_formed a -> reshape_rows a b = Ok a' -> well_formed a' /\ data a' = data a.
Proof.
  unfold well_formed, reshape_rows. intros Hwf H.
  destruct b as [| b]; [discriminate |].
  destruct (Nat.eqb (size_of (shape a) mod S b) 0) eqn:E; [| discriminate].
  injection H as <-. simpl. split; [| reflexivity].
  apply Nat.eqb_eq in E. rewrite Hwf.
  rewrite Nat.mul_1_r. apply Nat.Div0.div_exact in E. exact E.
Qed.

Lemma np_array_data l a :
  np_array l = Ok a -> data a = concat (map data l).
Proof.
  unfold np_array. destruct l as [| a0 l]; [intros [= <-]; reflexivity |].
  destruct (forallb _ l); [| discriminate]. intros [= <-]. reflexivity.
Qed.

Lemma reshape_data a s a' : reshape a s = Ok a' -> a' = mk_ndarray s (data a).
Proof.
  unfold reshape. destruct (Nat.eqb _ _); [| discriminate]. intros [= <-]. reflexivity.
Qed.

Lemma iter_rows_shape a rows k x :
  iter_rows a = Ok rows -> rows !! k = Some x ->
  exists b s, shape a = b :: s /\ shape x = s.
Proof.
  unfold iter_rows. destruct (shape a) as [| b s]; [discriminate |].
  intros [= <-] Hx. apply lookup_map_inv in Hx. destruct Hx as (i & _ & ->).
  exists b, s. auto.
Qed.

Lemma reshape_rows_shape a b a' :
  reshape_rows a b = Ok a' -> shape a' = [b; size_of (shape a) / b].
Proof.
  unfold reshape_rows. destruct b as [| b]; [discriminate |].
  destruct (Nat.eqb _ 0); [| discriminate]. intros [= <-]. reflexivity.
Qed.

(** ** Further properties of [minimize] *)

Lemma py_min_idem y m : py_min y (py_min y m) = py_min y m.
Proof.
  unfold py_min. destruct (SFltb m y) eqn:E.
  - rewrite E. reflexivity.
  - destruct (SFltb y y); reflexivity.
Qed.

Lemma py_min_inf y : py_min y inf = y.
Proof. unfold py_min, SFltb. destruct y as [s | s | | s m e]; try destruct s; reflexivity. Qed.

Lemma py_min_le_left y m :
  is_nan y = false -> is_nan m = false -> SFleb (py_min y m) y = true.
Proof.
  intros Hy Hm. unfold py_min, SFltb, SFleb.
  destruct (SFcompare m y) as [[| |] |] eqn:E;
    rewrite ?E, ?(SFcompare_refl y Hy); reflexivity.
Qed.

Lemma py_min_cases y m : py_min y m = y \/ py_min y m = m.
Proof. unfold py_min. destruct (SFltb m y); auto. Qed.

(** Along numbers, the last tracker is below the start and below every
    observed value, and it is the start or one of the observed values. *)
Lemma tracked_minimum vs : forall m,
  is_nan m = false ->
  Forall (fun p => is_nan (fst p) = false) vs ->
  tracked m vs ->
  is_nan (last_tracker m vs) = false /\
  SFleb (last_tracker m vs) m = true /\
  (forall y t, In (y, t) vs -> SFleb (last_tracker m vs) y = true) /\
  (last_tracker m vs = m \/ exists y t, In (y, t) vs /\ last_tracker m vs = y).
Proof.
  induction vs as [| [y t] vs IH]; intros m Hm Hall Ht.
  - unfold last_tracker. simpl. split; [exact Hm |].
    split; [unfold SFleb; rewrite SFcompare_refl; auto |].
    split; [intros y t [] | auto].
  - destruct Ht as [-> Ht]. inversion Hall as [| p l Hy Hall']; subst. simpl in Hy.
    destruct (py_min_le y m Hy Hm) as [Hle Hnan].
    destruct (IH _ Hnan Hall' Ht) as (Hn & Hl & Hys & Hat).
    assert (E : last_tracker m ((y, py_min y m) :: vs) = last_tracker (py_min y m) vs).
    { unfold last_tracker. cbn [map snd]. apply last_cons_default. }
    rewrite E. split; [exact Hn |].
    split; [eapply SFleb_trans; eauto |]. split.
    + intros y' t' [Heq | Hin].
      * injection Heq as <- <-. eapply SFleb_trans; [exact Hl |].
        apply py_min_le_left; assumption.
      * eapply Hys; eauto.
    + destruct Hat as [Hat | (y' & t' & Hin & Hat)].
      * rewrite Hat. destruct (py_min_cases y m) as [Hc | Hc].
        -- right. exists y, (py_min y m). split; [left; reflexivity | exact Hc].
        -- left. exact Hc.
      * right. exists y', t'. split; [right; exact Hin | exact Hat].
Qed.

Section Extras.

Variable jacobian : (Tensor -> result float) -> Tensor -> result Tensor.
Variable hessian : (Tensor -> result float) -> Tensor -> result Tensor.
Variable scipy_minimize : OptimizeRequest -> solver_run.

(** What every run that got past the key checks keeps: the objective, and
    a tracker that starts from [+infinity]. *)
Lemma minimize_dispatch_inv x0 kwargs self r self' evs args bw :
  minimize jacobian hessian scipy_minimize x0 kwargs self = (r, self', evs) ->
  kwargs !! "args" = Some args -> kwargs !! "hessp" = None ->
  kwargs !! "batchwise" = Some bw ->
  _obj_tc self' = _obj_tc self /\
  tracked inf (values evs) /\
  min_obj self' = last_tracker inf (values evs).
Proof.
  intros H Ha Hp Hb. apply minimize_inv in H. unfold contains in H.
  rewrite Ha, Hp, Hb in H. destruct H as (rb & H & _).
  destruct (truthy bw).
  - apply minimize_batch_inv in H. destruct H as (Ho & Ht & Hm & _). auto.
  - apply minimize_single_inv in H. destruct H as (Ho & Ht & Hm & _). auto.
Qed.

(** The run of [minimize] as one equation. *)
Lemma minimize_eq x0 kwargs self :
  minimize jacobian hessian scipy_minimize x0 kwargs self =
  match kwargs !! "args" with
  | None => (Err (KeyError "args"), self, [])
  | Some args =>
      if contains kwargs "hessp"
      then (Err (NotImplementedError hessp_message), self, [])
      else
        match kwargs !! "batchwise" with
        | None => (Err (KeyError "batchwise"), self, [])
        | Some batchwise =>
            let method := get_or kwargs "method" VNone in
            match
              (if truthy batchwise then minimize_batch else minimize_single)
                jacobian hessian scipy_minimize method
                (resolve_jac kwargs method) (resolve_hess kwargs method)
                (get_or kwargs "options" VNone) (get_or kwargs "callback" VNone)
                args (get_or kwargs "bounds" VNone)
                (get_or kwargs "constraints" (VTuple []))
                (get_or kwargs "tol" VNone)
                (numpy (detach x0)) [] []
                (mk_Minimizer (_obj_tc self) inf)
            with
            | (Ok (res, suc, msg), self', evs) =>
                match reshape res (shape (numpy (detach x0))) with
                | Ok ans => (Ok (from_numpy ans, suc, msg), self', evs)
                | Err e => (Err e, self', evs)
                end
            | (Err e, self', evs) => (Err e, self', evs)
            end
        end
  end.
Proof.
  destruct (minimize jacobian hessian scipy_minimize x0 kwargs self)
    as [[r self'] evs] eqn:H.
  apply minimize_inv in H.
  destruct (kwargs !! "args") as [args |]; [| destruct H as (-> & -> & ->); reflexivity].
  destruct (contains kwargs "hessp"); [destruct H as (-> & -> & ->); reflexivity |].
  destruct (kwargs !! "batchwise") as [bw |];
    [| destruct H as (-> & -> & ->); reflexivity].
  cbv zeta in *. destruct H as (rb & -> & ->).
  destruct rb as [[[res suc] msg] | e]; [| reflexivity].
  destruct (reshape res _); reflexivity.
Qed.

(** X1. A call does not depend on the value of [min_obj] it finds: two
    objects with the same objective give the same outcome and the same
    observations, and, past the key checks, end in the same state. *)
Theorem minimize_forgets_min_obj x0 kwargs self1 self2 :
  _obj_tc self1 = _obj_tc self2 ->
  fst (fst (minimize jacobian hessian scipy_minimize x0 kwargs self1))
  = fst (fst (minimize jacobian hessian scipy_minimize x0 kwargs self2)) /\
  snd (minimize jacobian hessian scipy_minimize x0 kwargs self1)
  = snd (minimize jacobian hessian scipy_minimize x0 kwargs self2) /\
  (is_Some (kwargs !! "args") -> kwargs !! "hessp" = None ->
   is_Some (kwargs !! "batchwise") ->
   snd (fst (minimize jacobian hessian scipy_minimize x0 kwargs self1))
   = snd (fst (minimize jacobian hessian scipy_minimize x0 kwargs self2))).
Proof.
  intros Hobj. rewrite !minimize_eq, Hobj. unfold contains.
  destruct (kwargs !! "args") as [args |];
    [| repeat split; auto; intros [? ?]; discriminate].
  destruct (kwargs !! "hessp") as [hp |];
    [repeat split; auto; discriminate |].
  destruct (kwargs !! "batchwise") as [bw |];
    [| repeat split; auto; intros _ _ [? ?]; discriminate].
  repeat split; reflexivity.
Qed.

(** X2. No call replaces the objective of the object. *)
Theorem minimize_keeps_objective x0 kwargs self :
  _obj_tc (snd (fst (minimize jacobian hessian scipy_minimize x0 kwargs self)))
  = _obj_tc self.
Proof.
  destruct (minimize jacobian hessian scipy_minimize x0 kwargs self)
    as [[r self'] evs] eqn:H.
  simpl. apply minimize_inv in H.
  destruct (kwargs !! "args") as [args |]; [| destruct H as (_ & -> & _); reflexivity].
  destruct (contains kwargs "hessp"); [destruct H as (_ & -> & _); reflexivity |].
  destruct (kwargs !! "batchwise") as [bw |];
    [| destruct H as (_ & -> & _); reflexivity].
  destruct H as (rb & H & _).
  destruct (truthy bw).
  - apply minimize_batch_inv in H. destruct H as (Ho & _). exact Ho.
  - apply minimize_single_inv in H. destruct H as (Ho & _). exact Ho.
Qed.

(** X3. Past the key checks, whether the call returns or raises, and when
    no observed value is a NaN: [min_obj] ends below or equal to every
    objective value observed during the call; it is [+infinity] when
    there was no evaluation and one of the observed values otherwise. *)
Theorem minimize_min_obj_is_minimum x0 kwargs self r self' evs args bw :
  minimize jacobian hessian scipy_minimize x0 kwargs self = (r, self', evs) ->
  kwargs !! "args" = Some args -> kwargs !! "hessp" = None ->
  kwargs !! "batchwise" = Some bw ->
  Forall (fun p => is_nan (fst p) = false) (values evs) ->
  (forall y t, In (y, t) (values evs) -> SFleb (min_obj self') y = true) /\
  (values evs = [] -> min_obj self' = inf) /\
  (values evs <> [] -> exists y t, In (y, t) (values evs) /\ min_obj self' = y).
Proof.
  intros H Ha Hp Hb Hall.
  destruct (minimize_dispatch_inv _ _ _ _ _ _ _ _ H Ha Hp Hb) as (_ & Ht & Hm).
  rewrite Hm.
  destruct (tracked_minimum (values evs) inf eq_refl Hall Ht) as (_ & _ & Hys & Hat).
  split; [exact Hys |]. split.
  - intros ->. reflexivity.
  - intros Hne. destruct Hat as [Hat | Hat]; [| exact Hat].
    destruct (values evs) as [| [y t] vs] eqn:E; [contradiction |].
    destruct Ht as [Hty Ht]. rewrite py_min_inf in Hty. subst t.
    assert (E' : last_tracker inf ((y, y) :: vs) = last_tracker y vs).
    { unfold last_tracker. cbn [map snd]. apply last_cons_default. }
    inversion Hall as [| p l Hy Hall']; subst. simpl in Hy.
    destruct (tracked_minimum vs y Hy Hall' Ht) as (_ & _ & _ & Hat').
    rewrite E'. destruct Hat' as [-> | (y' & t' & Hin & ->)].
    + exists y, y. split; [left; reflexivity | reflexivity].
    + exists y', t'. split; [right; exact Hin | reflexivity].
Qed.

(** X14. Evaluating the objective a second time at the same point leaves
    the object as the first evaluation left it. *)
Theorem obj_npy_twice x args self :
  snd (fst (_obj_npy x args (snd (fst (_obj_npy x args self)))))
  = snd (fst (_obj_npy x args self)).
Proof.
  rewrite (obj_npy_run x args self).
  destruct (_obj_tc self (requires_grad_ (from_numpy x) true) args) as [y | e] eqn:E.
  - simpl. rewrite obj_npy_run. simpl. rewrite E. simpl.
    rewrite py_min_idem. reflexivity.
  - simpl. rewrite obj_npy_run, E. reflexivity.
Qed.

(** X11. Every request of a call carries [_obj_npy] as the function to
    minimize and the [method], [options] and [callback] of the call, [None]
    for those that were omitted. *)
Theorem minimize_passes_options x0 kwargs self r self' evs req :
  minimize jacobian hessian scipy_minimize x0 kwargs self = (r, self', evs) ->
  In req (solves evs) ->
  req_fun req = Obj_npy /\
  req_method req = get_or kwargs "method" VNone /\
  req_options req = get_or kwargs "options" VNone /\
  req_callback req = get_or kwargs "callback" VNone.
Proof.
  intros H Hin.
  destruct (minimize_requests _ _ _ _ _ _ _ _ _ H req Hin)
    as (Hf & Hm & _ & _ & Ho & Hc).
  auto.
Qed.

(** X12. A request that carries the Hessian callback carries the gradient
    callback too, unless the configuration holds [jac=None]. *)
Theorem minimize_hess_implies_jac x0 kwargs self r self' evs req :
  minimize jacobian hessian scipy_minimize x0 kwargs self = (r, self', evs) ->
  In req (solves evs) ->
  req_hess req = Some Hess_npy ->
  kwargs !! "jac" <> Some VNone ->
  req_jac req = Some Jac_npy.
Proof.
  intros H Hin Hh Hj.
  destruct (minimize_requests _ _ _ _ _ _ _ _ _ H req Hin)
    as (_ & _ & Hjac & Hhess & _).
  rewrite Hjac. rewrite Hhess in Hh.
  unfold resolve_hess in Hh. unfold resolve_jac.
  destruct (given_none kwargs "jac") eqn:E;
    [apply given_none_spec in E; contradiction |].
  destruct (given_none kwargs "hess"); [discriminate |].
  destruct (py_in (get_or kwargs "method" VNone) hess_methods) eqn:Hin';
    [| discriminate].
  apply py_in_spec in Hin'. destruct Hin' as (name & Hname & Hm).
  assert (Hin2 : py_in (get_or kwargs "method" VNone) jac_methods = true).
  { apply py_in_spec. exists name. split; [| exact Hm].
    simpl in *. intuition auto. }
  rewrite Hin2. reflexivity.
Qed.

(** The batched branch as one equation. *)
Lemma minimize_batch_eq method jac hess options callback
    args bounds constraints tol x0 suc msg self :
  minimize_batch jacobian hessian scipy_minimize method jac hess options callback
                 args bounds constraints tol x0 suc msg self =
  match shape0 x0 with
  | Err e => (Err e, self, [])
  | Ok b =>
      match (if py_eq method (VStr "trust-constr")
             then reshape_rows x0 b else Ok x0) with
      | Err e => (Err e, self, [])
      | Ok x0' =>
          match iter_rows x0' with
          | Err e => (Err e, self, [])
          | Ok rows =>
              match batch_loop jacobian hessian scipy_minimize method jac hess
                               options callback
                               (batch_args b args) (batch_bounds b bounds)
                               (batch_constraints b constraints) (batch_tol b tol)
                               0 rows [] suc msg self with
              | (Ok (all_res, suc', msg'), self', evs) =>
                  match np_array all_res with
                  | Ok res => (Ok (res, suc', msg'), self', evs)
                  | Err e => (Err e, self', evs)
                  end
              | (Err e, self', evs) => (Err e, self', evs)
              end
          end
      end
  end.
Proof.
  unfold minimize_batch, mbind, M_bind, bind.
  unfold lift at 1. destruct (shape0 x0) as [b | e]; [| reflexivity].
  destruct (py_eq method (VStr "trust-constr")).
  - unfold lift at 1. destruct (reshape_rows x0 b) as [x0' | e]; [| reflexivity].
    unfold lift at 1. destruct (iter_rows x0') as [rows | e]; [| reflexivity].
    destruct (batch_loop _ _ _ _ _ _ _ _ _ _ _ _ _ _ _ _ _ self)
      as [[[[[all_res suc'] msg'] | e] self'] evs]; [| reflexivity].
    unfold lift, ret. destruct (np_array all_res); simpl; rewrite ?app_nil_r; reflexivity.
  - unfold ret at 1. unfold lift at 1.
    destruct (iter_rows x0) as [rows | e]; [| reflexivity].
    destruct (batch_loop _ _ _ _ _ _ _ _ _ _ _ _ _ _ _ _ _ self)
      as [[[[[all_res suc'] msg'] | e] self'] evs]; [| reflexivity].
    unfold lift, ret. destruct (np_array all_res); simpl; rewrite ?app_nil_r; reflexivity.
Qed.




(** X7. A batched call on a tensor of no dimension raises [IndexError]
    before any solver call, with the tracker reset to [+infinity]. *)
Theorem minimize_batch_scalar_x0 x0 kwargs self args bw :
  kwargs !! "args" = Some args -> kwargs !! "hessp" = None ->
  kwargs !! "batchwise" = Some bw -> truthy bw = true ->
  shape (t_array x0) = [] ->
  minimize jacobian hessian scipy_minimize x0 kwargs self
  = (Err IndexError, mk_Minimizer (_obj_tc self) inf, []).
Proof.
  intros Ha Hp Hb Ht Hs. rewrite minimize_eq. unfold contains.
  rewrite Ha, Hp, Hb, Ht. cbv zeta. rewrite minimize_batch_eq.
  change (numpy (detach x0)) with (t_array x0).
  unfold shape0. rewrite Hs. reflexivity.
Qed.

(** X8. A batched call on an empty batch, of shape [(0, ...)], makes no
    solver call; it returns an empty solution of the shape of [x0] with
    empty [suc] and [msg], except with [trust-constr], where the reshape
    to [(0, -1)] raises [ValueError]. *)
Theorem minimize_empty_batch x0 kwargs self args bw s :
  kwargs !! "args" = Some args -> kwargs !! "hessp" = None ->
  kwargs !! "batchwise" = Some bw -> truthy bw = true ->
  shape (t_array x0) = 0 :: s ->
  minimize jacobian hessian scipy_minimize x0 kwargs self
  = if py_eq (get_or kwargs "method" VNone) (VStr "trust-constr")
    then (Err ValueError, mk_Minimizer (_obj_tc self) inf, [])
    else (Ok (from_numpy (mk_ndarray (0 :: s) []), [], []),
          mk_Minimizer (_obj_tc self) inf, []).
Proof.
  intros Ha Hp Hb Ht Hs. rewrite minimize_eq. unfold contains.
  rewrite Ha, Hp, Hb, Ht. cbv zeta. rewrite minimize_batch_eq.
  change (numpy (detach x0)) with (t_array x0).
  unfold shape0. rewrite Hs.
  destruct (py_eq (get_or kwargs "method" VNone) (VStr "trust-constr")).
  - reflexivity.
  - unfold iter_rows. rewrite Hs. simpl. unfold reshape. simpl.
    reflexivity.
Qed.

(** X5. The length of a per-instance sequence is not checked beforehand: a
    batched call in which one of the four sequences has no element of some
    index [k < B] cannot return normally, and it tries the solver on [k]
    rows at most. *)
Theorem minimize_batch_bad_sequence x0 kwargs self r self' evs args bw B k :
  minimize jacobian hessian scipy_minimize x0 kwargs self = (r, self', evs) ->
  kwargs !! "args" = Some args ->
  kwargs !! "batchwise" = Some bw -> truthy bw = true ->
  shape0 (t_array x0) = Ok B -> k < B ->
  (exists e,
     py_index (batch_args B args) k = Err e \/
     py_index (batch_bounds B (get_or kwargs "bounds" VNone)) k = Err e \/
     py_index (batch_constraints B (get_or kwargs "constraints" (VTuple []))) k = Err e \/
     py_index (batch_tol B (get_or kwargs "tol" VNone)) k = Err e) ->
  (exists e, r = Err e) /\ length (solves evs) <= k.
Proof.
  intros H Ha Hb Ht HB Hk (e & Hbad). apply minimize_inv in H.
  rewrite Ha, Hb, Ht in H.
  destruct (contains kwargs "hessp").
  { destruct H as (-> & _ & ->). split; [eauto | simpl; lia]. }
  destruct H as (rb & H & Hr).
  apply minimize_batch_inv in H. destruct H as (_ & _ & _ & Hs & Hret & Hok).
  assert (Hno : solves evs !! k = None).
  { destruct (solves evs !! k) as [req |] eqn:E; [| reflexivity]. exfalso.
    apply Hs in E. destruct E as (B' & rows & x0_ & Hrows & _ & Hi).
    assert (B' = B) by (destruct Hrows as (HB' & _); unfold numpy, detach in HB';
                        simpl in HB'; congruence).
    subst B'. destruct Hi as (Hia & Hib & Hic & Hit & _).
    destruct Hbad as [Hbad | [Hbad | [Hbad | Hbad]]]; congruence. }
  apply lookup_ge_None in Hno. split; [| exact Hno].
  destruct rb as [[[res suc] msg] | e']; [| eauto].
  exfalso. destruct Hok as (B' & rows & Hrows & Hlen & _).
  assert (B' = B) by (destruct Hrows as (HB' & _); unfold numpy, detach in HB';
                      simpl in HB'; congruence).
  subst B'.
  destruct (lookup_lt_is_Some_2 (returns evs) k ltac:(lia)) as [[req sres] Hx].
  apply Hret in Hx. apply lookup_lt_Some in Hx. lia.
Qed.

(** X9. On a normal return the solution does not track gradients and its
    data are the data of the solver results, one after the other in the
    order of the solver calls. *)
Theorem minimize_solution_data x0 kwargs self ans suc msg self' evs :
  minimize jacobian hessian scipy_minimize x0 kwargs self
  = (Ok (ans, suc, msg), self', evs) ->
  requires_grad ans = false /\
  data (t_array ans) = concat (map (fun p => data (res_x (snd p))) (returns evs)).
Proof.
  intros H. apply minimize_inv in H.
  destruct (kwargs !! "args") as [args |]; [| destruct H; discriminate].
  destruct (contains kwargs "hessp"); [destruct H; discriminate |].
  destruct (kwargs !! "batchwise") as [bw |]; [| destruct H; discriminate].
  destruct H as (rb & H & Heq).
  destruct rb as [[[res suc'] msg'] | e]; [| discriminate].
  destruct (reshape res _) as [a |] eqn:E; [| discriminate].
  injection Heq as -> _ _. apply reshape_data in E. subst a.
  split; [reflexivity |]. simpl.
  destruct (truthy bw).
  - apply minimize_batch_inv in H.
    destruct H as (_ & _ & _ & _ & _ & b & rows & _ & _ & Hnp & _).
    apply np_array_data in Hnp. rewrite Hnp, map_map. reflexivity.
  - apply minimize_single_inv in H.
    destruct H as (_ & _ & _ & _ & sres & -> & -> & _). simpl.
    rewrite app_nil_r. reflexivity.
Qed.

(** X13. In a batched call on [x0] of shape [(B, ...s)], every solver call
    starts from an array of shape [s], or of the one-dimensional shape
    [(size / B,)] when the method is [trust-constr]. *)
Theorem minimize_batch_instance_shape x0 kwargs self r self' evs args bw k req :
  minimize jacobian hessian scipy_minimize x0 kwargs self = (r, self', evs) ->
  kwargs !! "args" = Some args ->
  kwargs !! "batchwise" = Some bw -> truthy bw = true ->
  solves evs !! k = Some req ->
  exists B s,
    shape (t_array x0) = B :: s /\
    shape (req_x0 req) =
      if py_eq (get_or kwargs "method" VNone) (VStr "trust-constr")
      then [size_of (B :: s) / B] else s.
Proof.
  intros H Ha Hb Ht Hk. apply minimize_inv in H. rewrite Ha, Hb, Ht in H.
  destruct (contains kwargs "hessp").
  { destruct H as (_ & _ & ->). destruct k; discriminate. }
  destruct H as (rb & H & _).
  apply minimize_batch_inv in H. destruct H as (_ & _ & _ & Hs & _).
  apply Hs in Hk. destruct Hk as (B & rows & x0_ & Hrows & Hx & Hi).
  destruct Hi as (_ & _ & _ & _ & ->). simpl.
  destruct Hrows as (HB & x0' & Hx0' & Hiter).
  change (numpy (detach x0)) with (t_array x0) in *.
  unfold shape0 in HB. destruct (shape (t_array x0)) as [| B' s] eqn:Hshape;
    [discriminate |].
  injection HB as ->. exists B, s. split; [reflexivity |].
  destruct (iter_rows_shape _ _ _ _ Hiter Hx) as (b' & s' & Hs' & ->).
  destruct (py_eq (get_or kwargs "method" VNone) (VStr "trust-constr")).
  - apply reshape_rows_shape in Hx0'. rewrite Hx0', Hshape in Hs'.
    injection Hs' as _ <-. reflexivity.
  - injection Hx0' as <-. rewrite Hshape in Hs'. injection Hs' as _ <-.
    reflexivity.
Qed.

(** X10. When every solver call returns the data of its starting point, a
    normal return gives back the array of [x0]: cutting [x0] into rows
    (flattened or not), stacking the results and reshaping is the
    identity on a well-formed array. *)
Theorem minimize_round_trip x0 kwargs self ans suc msg self' evs :
  minimize jacobian hessian scipy_minimize x0 kwargs self
  = (Ok (ans, suc, msg), self', evs) ->
  well_formed (t_array x0) ->
  (forall req res, In (req, res) (returns evs) ->
                   data (res_x res) = data (req_x0 req)) ->
  t_array ans = t_array x0.
Proof.
  intros H Hwf Hid. apply minimize_inv in H.
  destruct (kwargs !! "args") as [args |]; [| destruct H; discriminate].
  destruct (contains kwargs "hessp"); [destruct H; discriminate |].
  destruct (kwargs !! "batchwise") as [bw |]; [| destruct H; discriminate].
  destruct H as (rb & H & Heq).
  destruct rb as [[[res suc'] msg'] | e]; [| discriminate].
  destruct (reshape res _) as [a |] eqn:E; [| discriminate].
  injection Heq as -> _ _. apply reshape_data in E. subst a.
  change (numpy (detach x0)) with (t_array x0) in *.
  simpl. destruct (t_array x0) as [sh d] eqn:Hx0. simpl. f_equal.
  destruct (truthy bw).
  - apply minimize_batch_inv in H.
    destruct H as (_ & _ & _ & Hs & Hret & b & rows & Hrows & Hlen & Hnp & _).
    apply np_array_data in Hnp. rewrite Hnp, map_map.
    assert (Hmap : map (fun p => data (res_x (snd p))) (returns evs) = map data rows).
    { apply list_eq_same_length with (n := b).
      - rewrite length_map. eapply batch_rows_length; eauto.
      - rewrite length_map. exact Hlen.
      - intros i y z Hi Hy Hz.
        apply lookup_map_inv in Hy. destruct Hy as ([req sres] & Hy & ->).
        apply lookup_map_inv in Hz. destruct Hz as (row & Hz & ->).
        simpl. rewrite (Hid req sres) by (apply list_elem_of_In;
                                          eapply list_elem_of_lookup_2; eauto).
        apply Hret, Hs in Hy. destruct Hy as (b' & rows' & x0_ & Hrows' & Hx & Hi').
        destruct (batch_rows_fun _ _ _ _ _ _ Hrows Hrows') as [-> ->].
        destruct Hi' as (_ & _ & _ & _ & ->). simpl. congruence. }
    rewrite Hmap. destruct Hrows as (HB & x0' & Hx0' & Hiter).
    destruct (py_eq _ _).
    + destruct (reshape_rows_well_formed _ _ _ Hwf Hx0') as [Hwf' Hd].
      rewrite (iter_rows_concat _ _ Hwf' Hiter), Hd. reflexivity.
    + injection Hx0' as <-. rewrite (iter_rows_concat _ _ Hwf Hiter). reflexivity.
  - apply minimize_single_inv in H.
    destruct H as (_ & _ & _ & _ & sres & Hret & -> & _).
    rewrite (Hid _ sres) by (rewrite Hret; left; reflexivity).
    simpl. unfold single_x0. destruct (py_eq _ _); reflexivity.
Qed.

Lemma batch_loop_ext method jac hess options callback
    args bounds constraints tol args' bounds' constraints' tol' rows :
  forall i all_res suc msg self,
  (forall k, k < length rows -> py_index args (i + k) = py_index args' (i + k)) ->
  (forall k, k < length rows -> py_index bounds (i + k) = py_index bounds' (i + k)) ->
  (forall k, k < length rows ->
             py_index constraints (i + k) = py_index constraints' (i + k)) ->
  (forall k, k < length rows -> py_index tol (i + k) = py_index tol' (i + k)) ->
  batch_loop jacobian hessian scipy_minimize method jac hess options callback
             args bounds constraints tol i rows all_res suc msg self
  = batch_loop jacobian hessian scipy_minimize method jac hess options callback
               args' bounds' constraints' tol' i rows all_res suc msg self.
Proof.
  induction rows as [| x0_ rows IH]; intros i all_res suc msg self Ha Hb Hc Ht.
  - reflexivity.
  - pose proof (Ha 0 ltac:(simpl; lia)) as Ha0.
    pose proof (Hb 0 ltac:(simpl; lia)) as Hb0.
    pose proof (Hc 0 ltac:(simpl; lia)) as Hc0.
    pose proof (Ht 0 ltac:(simpl; lia)) as Ht0.
    rewrite Nat.add_0_r in Ha0, Hb0, Hc0, Ht0.
    cbn [batch_loop]. unfold mbind, M_bind, bind, lift.
    rewrite Ha0, Hb0, Hc0, Ht0.
    destruct (py_index args' i) as [a |]; [| reflexivity].
    destruct (py_index bounds' i) as [b |]; [| reflexivity].
    destruct (py_index constraints' i) as [c |]; [| reflexivity].
    destruct (py_index tol' i) as [t |]; [| reflexivity].
    destruct (solve _ _ _ _ self) as [[[res | e] s] ev]; [| reflexivity].
    rewrite IH; [reflexivity | | | |]; intros k Hk;
      replace (S i + k) with (i + S k) by lia;
      [apply Ha | apply Hb | apply Hc | apply Ht]; simpl; lia.
Qed.

Lemma iter_rows_length a rows b :
  shape0 a = Ok b -> iter_rows a = Ok rows -> length rows = b.
Proof.
  unfold shape0, iter_rows. destruct (shape a) as [| b' s]; [discriminate |].
  intros [= ->] [= <-]. rewrite length_map, length_seq. reflexivity.
Qed.

(** X6. A batched call reads the elements of index below [B] of the four
    normalized sequences and nothing else of them: two configurations
    that agree on every other key and on those elements give the same
    outcome, the same final object and the same observations.  Elements
    beyond [B] are ignored, and [None] is the same as [B] times [None]. *)
Theorem minimize_batch_reads_first_B x0 kwargs kwargs' self args args' bw B :
  kwargs !! "args" = Some args -> kwargs' !! "args" = Some args' ->
  kwargs !! "batchwise" = Some bw -> truthy bw = true ->
  shape0 (t_array x0) = Ok B ->
  (forall key, ~ In key instance_keys -> kwargs !! key = kwargs' !! key) ->
  same_upto B (batch_args B args) (batch_args B args') ->
  same_upto B (batch_bounds B (get_or kwargs "bounds" VNone))
              (batch_bounds B (get_or kwargs' "bounds" VNone)) ->
  same_upto B (batch_constraints B (get_or kwargs "constraints" (VTuple [])))
              (batch_constraints B (get_or kwargs' "constraints" (VTuple []))) ->
  same_upto B (batch_tol B (get_or kwargs "tol" VNone))
              (batch_tol B (get_or kwargs' "tol" VNone)) ->
  minimize jacobian hessian scipy_minimize x0 kwargs self
  = minimize jacobian hessian scipy_minimize x0 kwargs' self.
Proof.
  intros Ha Ha' Hb Ht HB Hsame Hsa Hsb Hsc Hst.
  assert (Hkey : forall key, In key ["hessp"; "batchwise"; "method"; "jac"; "hess";
                                       "options"; "callback"] ->
                             kwargs !! key = kwargs' !! key).
  { intros key Hin. apply Hsame. unfold instance_keys. simpl in *.
    intros Hc. intuition (subst; discriminate). }
  rewrite !minimize_eq. unfold contains, resolve_jac, resolve_hess, given_none.
  unfold get_or at 1 2 3 4 5 9 10 11 12 13.
  rewrite Ha, Ha'.
  rewrite <- (Hkey "hessp"), <- (Hkey "batchwise"), <- (Hkey "method"),
    <- (Hkey "jac"), <- (Hkey "hess"), <- (Hkey "options"), <- (Hkey "callback")
    by (simpl; auto 10).
  destruct (kwargs !! "hessp"); [reflexivity |].
  rewrite Hb, Ht. cbv zeta.
  rewrite !minimize_batch_eq.
  change (numpy (detach x0)) with (t_array x0). rewrite HB.
  destruct (if py_eq _ _ then _ else _) as [x0' |] eqn:Hx0'; [| reflexivity].
  destruct (iter_rows x0') as [rows |] eqn:Hrows; [| reflexivity].
  assert (Hlen : length rows = B).
  { apply (batch_rows_length
             (match kwargs !! "method" with Some v => v | None => VNone end)
             (t_array x0)).
    split; [exact HB |]. exists x0'. auto. }
  rewrite (batch_loop_ext _ _ _ _ _
             (batch_args B args) (batch_bounds B (get_or kwargs "bounds" VNone))
             (batch_constraints B (get_or kwargs "constraints" (VTuple [])))
             (batch_tol B (get_or kwargs "tol" VNone))
             (batch_args B args') (batch_bounds B (get_or kwargs' "bounds" VNone))
             (batch_constraints B (get_or kwargs' "constraints" (VTuple [])))
             (batch_tol B (get_or kwargs' "tol" VNone)));
    [reflexivity | | | |]; intros k Hk; simpl;
    [apply Hsa | apply Hsb | apply Hsc | apply Hst]; lia.
Qed.

Lemma batch_loop_err method jac hess options callback
    args bounds constraints tol rows :
  forall i all_res suc msg self e self' evs,
  batch_loop jacobian hessian scipy_minimize method jac hess options callback
             args bounds constraints tol i rows all_res suc msg self
  = (Err e, self', evs) ->
  length (returns evs) < length rows.
Proof.
  induction rows as [| x0_ rows IH]; intros i all_res suc msg self e self' evs H.
  - simpl in H. leaf H.
  - simpl in H.
    step H as a s1 e1 e1' H1; [leaf H; simpl; lia |]. leaf H1.
    step H as b s2 e2 e2' H2; [leaf H; simpl; lia |]. leaf H2.
    step H as c s3 e3 e3' H3; [leaf H; simpl; lia |]. leaf H3.
    step H as t s4 e4 e4' H4; [leaf H; simpl; lia |]. leaf H4.
    simpl.
    step H as res s5 e5 e5' H5.
    + apply solve_inv in H. destruct H as (evs' & _ & _ & Hret & _).
      rewrite Hret. simpl. lia.
    + apply solve_inv in H5. destruct H5 as (evs' & _ & _ & Hret & _).
      apply IH in H. rewrite returns_app, Hret. simpl. lia.
Qed.

(** X15. In a single-instance call that got past the key checks and whose
    solver call returned, the outcome is read off the solver result: its
    [x] reshaped to the shape of [x0], with its success flag and message,
    or the [ValueError] of the reshape when the sizes differ. *)
Theorem minimize_single_outcome x0 kwargs self r self' evs args bw req res :
  minimize jacobian hessian scipy_minimize x0 kwargs self = (r, self', evs) ->
  kwargs !! "args" = Some args -> kwargs !! "hessp" = None ->
  kwargs !! "batchwise" = Some bw -> truthy bw = false ->
  returns evs = [(req, res)] ->
  r = if Nat.eqb (size_of (shape (t_array x0))) (size_of (shape (res_x res)))
      then Ok (from_numpy (mk_ndarray (shape (t_array x0)) (data (res_x res))),
               [res_success res], [res_message res])
      else Err ValueError.
Proof.
  intros H Ha Hp Hb Ht Hret. apply minimize_inv in H. unfold contains in H.
  rewrite Ha, Hp, Hb, Ht in H. destruct H as (rb & H & ->).
  apply minimize_single_inv in H. destruct H as (_ & _ & _ & _ & Hrb).
  destruct rb as [[[x suc] msg] | e]; [| rewrite Hret in Hrb; discriminate].
  destruct Hrb as (sres & Hret' & -> & -> & ->).
  rewrite Hret in Hret'. injection Hret' as _ <-.
  unfold reshape. change (numpy (detach x0)) with (t_array x0).
  destruct (Nat.eqb _ _); reflexivity.
Qed.

(** X16. In a batched call on a non-empty batch that got past the key
    checks and in which all [B] solver calls returned, the outcome is read
    off the solver results: they are stacked and reshaped to the shape of
    [x0], with their success flags and messages in order; results of
    different shapes, or of a total size other than that of [x0], give the
    [ValueError] of the stacking or of the reshape. *)
Theorem minimize_batch_outcome x0 kwargs self r self' evs args bw B :
  minimize jacobian hessian scipy_minimize x0 kwargs self = (r, self', evs) ->
  kwargs !! "args" = Some args -> kwargs !! "hessp" = None ->
  kwargs !! "batchwise" = Some bw -> truthy bw = true ->
  shape0 (t_array x0) = Ok B -> 0 < B ->
  length (returns evs) = B ->
  r = match np_array (map (fun p => res_x (snd p)) (returns evs)) with
      | Ok stacked =>
          match reshape stacked (shape (t_array x0)) with
          | Ok a => Ok (from_numpy a,
                        map (fun p => res_success (snd p)) (returns evs),
                        map (fun p => res_message (snd p)) (returns evs))
          | Err e => Err e
          end
      | Err e => Err e
      end.
Proof.
  intros H Ha Hp Hb Ht HB Hpos Hlen. rewrite minimize_eq in H. unfold contains in H.
  rewrite Ha, Hp, Hb, Ht in H. cbv zeta in H. rewrite minimize_batch_eq in H.
  change (numpy (detach x0)) with (t_array x0) in H. rewrite HB in H.
  destruct (if py_eq _ _ then _ else _) as [x0' |] eqn:Hx0';
    [| simplify_eq; simpl in Hpos; lia].
  destruct (iter_rows x0') as [rows |] eqn:Hrows;
    [| simplify_eq; simpl in Hpos; lia].
  assert (Hrl : length rows = length (returns evs)).
  { rewrite Hlen.
    apply (batch_rows_length (get_or kwargs "method" VNone) (t_array x0)).
    split; [exact HB |]. exists x0'. auto. }
  destruct (batch_loop _ _ _ _ _ _ _ _ _ _ _ _ _ _ _ _ _ _)
    as [[rl sl] el] eqn:Hloop.
  destruct rl as [[[all_res suc] msg] | e].
  - apply batch_loop_inv in Hloop.
    destruct Hloop as (_ & _ & _ & _ & _ & _ & -> & -> & ->). simpl in H.
    assert (el = evs).
    { destruct (np_array _); [destruct (reshape _ _) |]; congruence. }
    subst el.
    destruct (np_array _) as [stacked |]; [| congruence].
    destruct (reshape stacked _); congruence.
  - apply batch_loop_err in Hloop. simplify_eq. lia.
Qed.

End Extras.

(** ** More sample calls *)

Lemma minimize_forgets_min_obj_witness :
  _obj_tc (init first_objective) = _obj_tc (mk_Minimizer first_objective f_neg_one) /\
  fst (fst (demo_run_with probe_solver x3 kw_batch (init first_objective)))
  = fst (fst (demo_run_with probe_solver x3 kw_batch
                            (mk_Minimizer first_objective f_neg_one))).
Proof.
  assert (Hobj : _obj_tc (init first_objective)
                 = _obj_tc (mk_Minimizer first_objective f_neg_one)) by reflexivity.
  split; [exact Hobj |].
  exact (proj1 (minimize_forgets_min_obj demo_grad demo_grad probe_solver x3
                  (kw kw_batch) _ _ Hobj)).
Defined.

Lemma minimize_min_obj_is_minimum_witness :
  exists r self' evs,
    demo_run first_objective x3 kw_batch = (r, self', evs) /\
    kw kw_batch !! "args" = Some (VTuple []) /\
    kw kw_batch !! "hessp" = None /\
    kw kw_batch !! "batchwise" = Some (VBool true) /\
    Forall (fun p => is_nan (fst p) = false) (values evs) /\
    (forall y t, In (y, t) (values evs) -> SFleb (min_obj self') y = true).
Proof.
  do 3 eexists.
  match goal with |- ?A /\ _ => assert (Hrun : A) by (vm_compute; reflexivity) end.
  split; [exact Hrun |].
  assert (Ha : kw kw_batch !! "args" = Some (VTuple [])) by (vm_compute; reflexivity).
  assert (Hp : kw kw_batch !! "hessp" = None) by (vm_compute; reflexivity).
  assert (Hb : kw kw_batch !! "batchwise" = Some (VBool true)) by (vm_compute; reflexivity).
  split; [exact Ha |]. split; [exact Hp |]. split; [exact Hb |].
  match goal with |- ?A /\ _ =>
    assert (Hall : A) by (vm_compute; repeat constructor) end.
  split; [exact Hall |].
  exact (proj1 (minimize_min_obj_is_minimum _ _ _ _ _ _ _ _ _ _ _ Hrun Ha Hp Hb Hall)).
Defined.


Lemma minimize_batch_bad_sequence_witness :
  exists r self' evs,
    demo_run first_objective x3 kw_batch_short_bounds = (r, self', evs) /\
    kw kw_batch_short_bounds !! "args" = Some (VTuple []) /\
    kw kw_batch_short_bounds !! "batchwise" = Some (VBool true) /\
    truthy (VBool true) = true /\
    shape0 (t_array x3) = Ok 3 /\ 2 < 3 /\
    py_index (batch_bounds 3 (get_or (kw kw_batch_short_bounds) "bounds" VNone)) 2
    = Err IndexError /\
    (exists e, r = Err e) /\ length (solves evs) <= 2.
Proof.
  do 3 eexists.
  match goal with |- ?A /\ _ => assert (Hrun : A) by (vm_compute; reflexivity) end.
  split; [exact Hrun |].
  assert (Ha : kw kw_batch_short_bounds !! "args" = Some (VTuple []))
    by (vm_compute; reflexivity).
  assert (Hb : kw kw_batch_short_bounds !! "batchwise" = Some (VBool true))
    by (vm_compute; reflexivity).
  assert (Ht : truthy (VBool true) = true) by reflexivity.
  assert (HB : shape0 (t_array x3) = Ok 3) by reflexivity.
  assert (Hk : 2 < 3) by lia.
  assert (Hbad : py_index (batch_bounds 3 (get_or (kw kw_batch_short_bounds)
                                                 "bounds" VNone)) 2
                 = Err IndexError) by (vm_compute; reflexivity).
  split; [exact Ha |]. split; [exact Hb |]. split; [exact Ht |].
  split; [exact HB |]. split; [exact Hk |]. split; [exact Hbad |].
  apply (minimize_batch_bad_sequence _ _ _ _ _ _ _ _ _ _ _ _ _ Hrun Ha Hb Ht HB Hk).
  exists IndexError. right. left. exact Hbad.
Defined.

Lemma minimize_batch_reads_first_B_witness :
  kw kw_batch_bounds3 !! "args" = Some (VTuple []) /\
  kw kw_batch_bounds4 !! "args" = Some (VTuple []) /\
  kw kw_batch_bounds3 !! "batchwise" = Some (VBool true) /\
  truthy (VBool true) = true /\
  shape0 (t_array x3) = Ok 3 /\
  demo_run first_objective x3 kw_batch_bounds3
  = demo_run first_objective x3 kw_batch_bounds4.
Proof.
  assert (Ha : kw kw_batch_bounds3 !! "args" = Some (VTuple []))
    by (vm_compute; reflexivity).
  assert (Ha' : kw kw_batch_bounds4 !! "args" = Some (VTuple []))
    by (vm_compute; reflexivity).
  assert (Hb : kw kw_batch_bounds3 !! "batchwise" = Some (VBool true))
    by (vm_compute; reflexivity).
  assert (Ht : truthy (VBool true) = true) by reflexivity.
  assert (HB : shape0 (t_array x3) = Ok 3) by reflexivity.
  split; [exact Ha |]. split; [exact Ha' |]. split; [exact Hb |].
  split; [exact Ht |]. split; [exact HB |].
  apply (minimize_batch_reads_first_B demo_grad demo_grad probe_solver x3
           (kw kw_batch_bounds3) (kw kw_batch_bounds4) (init first_objective)
           _ _ _ 3 Ha Ha' Hb Ht HB).
  - intros key Hkey.
    change (kw kw_batch_bounds3)
      with (<["bounds" := VList [VNone; VNone; VNone]]> (kw kw_batch)).
    change (kw kw_batch_bounds4)
      with (<["bounds" := VList [VNone; VNone; VNone; VObj 9]]> (kw kw_batch)).
    assert (Hne : "bounds" <> key).
    { intros <-. apply Hkey. simpl. auto. }
    rewrite !lookup_insert_ne by exact Hne. reflexivity.
  - intros k Hk. reflexivity.
  - intros k Hk. destruct k as [| [| [| k]]]; [reflexivity .. | lia].
  - intros k Hk. reflexivity.
  - intros k Hk. reflexivity.
Defined.

Lemma minimize_batch_scalar_x0_witness :
  kw kw_batch !! "args" = Some (VTuple []) /\
  kw kw_batch !! "hessp" = None /\
  kw kw_batch !! "batchwise" = Some (VBool true) /\
  truthy (VBool true) = true /\
  shape (t_array x_scalar) = [] /\
  demo_run first_objective x_scalar kw_batch
  = (Err IndexError, init first_objective, []).
Proof.
  assert (Ha : kw kw_batch !! "args" = Some (VTuple [])) by (vm_compute; reflexivity).
  assert (Hp : kw kw_batch !! "hessp" = None) by (vm_compute; reflexivity).
  assert (Hb : kw kw_batch !! "batchwise" = Some (VBool true)) by (vm_compute; reflexivity).
  assert (Ht : truthy (VBool true) = true) by reflexivity.
  assert (Hs : shape (t_array x_scalar) = []) by reflexivity.
  split; [exact Ha |]. split; [exact Hp |]. split; [exact Hb |].
  split; [exact Ht |]. split; [exact Hs |].
  exact (minimize_batch_scalar_x0 demo_grad demo_grad probe_solver x_scalar
           (kw kw_batch) (init first_objective) _ _ Ha Hp Hb Ht Hs).
Defined.

Lemma minimize_empty_batch_witness :
  kw kw_batch !! "args" = Some (VTuple []) /\
  kw kw_batch !! "hessp" = None /\
  kw kw_batch !! "batchwise" = Some (VBool true) /\
  truthy (VBool true) = true /\
  shape (t_array x_empty) = [0; 2] /\
  demo_run first_objective x_empty kw_batch
  = (Ok (from_numpy (mk_ndarray [0; 2] []), [], []), init first_objective, []).
Proof.
  assert (Ha : kw kw_batch !! "args" = Some (VTuple [])) by (vm_compute; reflexivity).
  assert (Hp : kw kw_batch !! "hessp" = None) by (vm_compute; reflexivity).
  assert (Hb : kw kw_batch !! "batchwise" = Some (VBool true)) by (vm_compute; reflexivity).
  assert (Ht : truthy (VBool true) = true) by reflexivity.
  assert (Hs : shape (t_array x_empty) = [0; 2]) by reflexivity.
  split; [exact Ha |]. split; [exact Hp |]. split; [exact Hb |].
  split; [exact Ht |]. split; [exact Hs |].
  unfold demo_run.
  rewrite (minimize_empty_batch demo_grad demo_grad probe_solver x_empty
             (kw kw_batch) (init first_objective) _ _ _ Ha Hp Hb Ht Hs).
  vm_compute. reflexivity.
Defined.

Lemma minimize_solution_data_witness :
  exists ans suc msg self' evs,
    demo_run first_objective x23 kw_batch_trust = (Ok (ans, suc, msg), self', evs) /\
    requires_grad ans = false /\
    data (t_array ans) = concat (map (fun p => data (res_x (snd p))) (returns evs)).
Proof.
  do 5 eexists.
  match goal with |- ?A /\ _ => assert (Hrun : A) by (vm_compute; reflexivity) end.
  split; [exact Hrun |].
  exact (minimize_solution_data _ _ _ _ _ _ _ _ _ _ _ Hrun).
Defined.

Lemma minimize_round_trip_witness :
  exists ans suc msg self' evs,
    demo_run first_objective x23 kw_batch_trust = (Ok (ans, suc, msg), self', evs) /\
    well_formed (t_array x23) /\
    (forall req res, In (req, res) (returns evs) ->
                     data (res_x res) = data (req_x0 req)) /\
    t_array ans = t_array x23.
Proof.
  do 5 eexists.
  match goal with |- ?A /\ _ => assert (Hrun : A) by (vm_compute; reflexivity) end.
  split; [exact Hrun |].
  assert (Hwf : well_formed (t_array x23)) by reflexivity.
  split; [exact Hwf |].
  match goal with |- ?A /\ _ => assert (Hid : A) end.
  { intros req res Hin. vm_compute in Hin.
    destruct Hin as [Hin | [Hin | []]]; injection Hin as <- <-; reflexivity. }
  split; [exact Hid |].
  exact (minimize_round_trip _ _ _ _ _ _ _ _ _ _ _ Hrun Hwf Hid).
Defined.

Lemma minimize_passes_options_witness :
  exists r self' evs req,
    demo_run first_objective x3 kw_batch_options = (r, self', evs) /\
    In req (solves evs) /\
    req_options req = VObj 1 /\ req_callback req = VObj 2.
Proof.
  do 4 eexists.
  match goal with |- ?A /\ _ => assert (Hrun : A) by (vm_compute; reflexivity) end.
  split; [exact Hrun |].
  match goal with |- ?A /\ _ => assert (Hin : A) by (right; left; reflexivity) end.
  split; [exact Hin |].
  destruct (minimize_passes_options _ _ _ _ _ _ _ _ _ _ Hrun Hin) as (_ & _ & Ho & Hc).
  split; [rewrite Ho | rewrite Hc]; vm_compute; reflexivity.
Defined.

Lemma minimize_hess_implies_jac_witness :
  exists r self' evs req,
    demo_run first_objective x23 kw_single_newton = (r, self', evs) /\
    In req (solves evs) /\
    req_hess req = Some Hess_npy /\
    kw kw_single_newton !! "jac" <> Some VNone /\
    req_jac req = Some Jac_npy.
Proof.
  do 4 eexists.
  match goal with |- ?A /\ _ => assert (Hrun : A) by (vm_compute; reflexivity) end.
  split; [exact Hrun |].
  match goal with |- ?A /\ _ => assert (Hin : A) by (left; reflexivity) end.
  split; [exact Hin |].
  match goal with |- ?A /\ _ => assert (Hh : A) by reflexivity end.
  split; [exact Hh |].
  assert (Hj : kw kw_single_newton !! "jac" <> Some VNone) by (vm_compute; discriminate).
  split; [exact Hj |].
  exact (minimize_hess_implies_jac _ _ _ _ _ _ _ _ _ _ Hrun Hin Hh Hj).
Defined.

Lemma minimize_batch_instance_shape_witness :
  exists r self' evs req,
    demo_run first_objective x23 kw_batch_trust = (r, self', evs) /\
    kw kw_batch_trust !! "args" = Some (VTuple []) /\
    kw kw_batch_trust !! "batchwise" = Some (VBool true) /\
    truthy (VBool true) = true /\
    solves evs !! 1 = Some req /\
    exists B s,
      shape (t_array x23) = B :: s /\
      shape (req_x0 req) =
        if py_eq (get_or (kw kw_batch_trust) "method" VNone) (VStr "trust-constr")
        then [size_of (B :: s) / B] else s.
Proof.
  do 4 eexists.
  match goal with |- ?A /\ _ => assert (Hrun : A) by (vm_compute; reflexivity) end.
  split; [exact Hrun |].
  assert (Ha : kw kw_batch_trust !! "args" = Some (VTuple [])) by (vm_compute; reflexivity).
  assert (Hb : kw kw_batch_trust !! "batchwise" = Some (VBool true))
    by (vm_compute; reflexivity).
  assert (Ht : truthy (VBool true) = true) by reflexivity.
  split; [exact Ha |]. split; [exact Hb |]. split; [exact Ht |].
  match goal with |- ?A /\ _ => assert (Hk : A) by (vm_compute; reflexivity) end.
  split; [exact Hk |].
  exact (minimize_batch_instance_shape _ _ _ _ _ _ _ _ _ _ _ _ _ Hrun Ha Hb Ht Hk).
Defined.

Lemma minimize_single_outcome_witness :
  exists r self' evs req res,
    demo_run first_objective x23 kw_single_trust = (r, self', evs) /\
    kw kw_single_trust !! "args" = Some (VTuple []) /\
    kw kw_single_trust !! "hessp" = None /\
    kw kw_single_trust !! "batchwise" = Some (VBool false) /\
    truthy (VBool false) = false /\
    returns evs = [(req, res)] /\
    r = Ok (from_numpy (mk_ndarray [2; 3] (data (res_x res))), [true], ["ok"]).
Proof.
  do 5 eexists.
  match goal with |- ?A /\ _ => assert (Hrun : A) by (vm_compute; reflexivity) end.
  split; [exact Hrun |].
  assert (Ha : kw kw_single_trust !! "args" = Some (VTuple [])) by (vm_compute; reflexivity).
  assert (Hp : kw kw_single_trust !! "hessp" = None) by (vm_compute; reflexivity).
  assert (Hb : kw kw_single_trust !! "batchwise" = Some (VBool false))
    by (vm_compute; reflexivity).
  assert (Ht : truthy (VBool false) = false) by reflexivity.
  split; [exact Ha |]. split; [exact Hp |]. split; [exact Hb |]. split; [exact Ht |].
  match goal with |- ?A /\ _ => assert (Hret : A) by (vm_compute; reflexivity) end.
  split; [exact Hret |].
  rewrite (minimize_single_outcome _ _ _ _ _ _ _ _ _ _ _ _ _ Hrun Ha Hp Hb Ht Hret).
  reflexivity.
Defined.

Lemma minimize_batch_outcome_witness :
  exists r self' evs,
    demo_run first_objective x3 kw_batch = (r, self', evs) /\
    kw kw_batch !! "args" = Some (VTuple []) /\
    kw kw_batch !! "hessp" = None /\
    kw kw_batch !! "batchwise" = Some (VBool true) /\
    truthy (VBool true) = true /\
    shape0 (t_array x3) = Ok 3 /\ 0 < 3 /\
    length (returns evs) = 3 /\
    r = Ok (from_numpy (t_array x3), [true; true; true], ["ok"; "ok"; "ok"]).
Proof.
  do 3 eexists.
  match goal with |- ?A /\ _ => assert (Hrun : A) by (vm_compute; reflexivity) end.
  split; [exact Hrun |].
  assert (Ha : kw kw_batch !! "args" = Some (VTuple [])) by (vm_compute; reflexivity).
  assert (Hp : kw kw_batch !! "hessp" = None) by (vm_compute; reflexivity).
  assert (Hb : kw kw_batch !! "batchwise" = Some (VBool true)) by (vm_compute; reflexivity).
  assert (Ht : truthy (VBool true) = true) by reflexivity.
  assert (HB : shape0 (t_array x3) = Ok 3) by reflexivity.
  assert (Hpos : 0 < 3) by lia.
  split; [exact Ha |]. split; [exact Hp |]. split; [exact Hb |]. split; [exact Ht |].
  split; [exact HB |]. split; [exact Hpos |].
  match goal with |- ?A /\ _ => assert (Hlen : A) by (vm_compute; reflexivity) end.
  split; [exact Hlen |].
  rewrite (minimize_batch_outcome _ _ _ _ _ _ _ _ _ _ _ _ Hrun Ha Hp Hb Ht HB Hpos Hlen).
  vm_compute. reflexivity.
Defined.
